(** * gqnlib: the dataset conversion pipeline and the scene loader

    A shallow embedding of [examples/convert_tfrecord_torch.py], of
    [gqnlib/scene_dataset.py] and of [gqnlib/scheduler.py].

    Conventions of the embedding:
    - the TensorFlow of the script is TensorFlow 2: the script iterates
      a dataset and calls [.numpy()] on tensors, which needs eager
      execution, and never enables it;
    - a tensor is its shape (a list of integer dimensions) together with
      its elements in row-major order, as TensorFlow, NumPy and PyTorch
      hold it;
    - [float32] values are idealised as real numbers: rounding is not
      modelled, [tf.sin], [torch.sin], ... are the real functions;
    - a raised Python exception is a value [Raise e]; code that can raise
      lives in the [result] monad;
    - the file system is passed explicitly: a finite map from directory
      paths to directories, a directory being a finite map from entry
      names to files. *)

From Stdlib Require Import ZArith Reals List String Ascii Lia Lra.
From stdpp Require Import base option list gmap strings pretty sorting.

Open Scope Z_scope.

(** ** Exceptions *)

Inductive Exn : Type :=
| KeyError
| ValueError
| TypeError
| RuntimeError
| FileNotFoundError
| OSError
| InvalidArgumentError
| NotFoundError
| DataLossError.

Inductive result (T : Type) : Type :=
| Ok (v : T)
| Raise (e : Exn).

Arguments Ok {T} v.
Arguments Raise {T} e.

#[global] Instance result_ret : MRet result := fun _ v => Ok v.
#[global] Instance result_bind : MBind result := fun _ _ f c =>
  match c with
  | Ok v => f v
  | Raise e => Raise e
  end.
#[global] Instance result_fmap : FMap result := fun _ _ f c =>
  match c with
  | Ok v => Ok (f v)
  | Raise e => Raise e
  end.

Definition is_Ok {T} (c : result T) : bool :=
  match c with Ok _ => true | Raise _ => false end.

(** ** Tensors *)

Module Tensor.

Record tensor (A : Type) : Type := Build { shape : list Z; data : list A }.
Arguments Build {A} shape data.
Arguments shape {A} t.
Arguments data {A} t.

Definition dim_prod (s : list Z) : Z := foldr Z.mul 1 s.

Definition numel {A} (t : tensor A) : Z := dim_prod (shape t).

Definition rank {A} (t : tensor A) : nat := length (shape t).

Definition shape_eqb (s1 s2 : list Z) : bool := bool_decide (s1 = s2).

(** Leading dimensions and last dimension of a shape of rank >= 1. *)
Definition leading (s : list Z) : list Z := removelast s.
Definition last_dim (s : list Z) : Z := List.last s 1.

(** The elements seen as [n] rows of [d] consecutive elements: the
    slices along the last axis. *)
Fixpoint rows {A} (n d : nat) (l : list A) : list (list A) :=
  match n with
  | O => []
  | S n' => take d l :: rows n' d (drop d l)
  end.

Definition rows_of {A} (t : tensor A) : list (list A) :=
  rows (Z.to_nat (dim_prod (leading (shape t))))
       (Z.to_nat (last_dim (shape t))) (data t).

(** Element-wise application, [tf.sin], [torch.cos] and the like. *)
Definition pointwise {A B} (f : A -> B) (t : tensor A) : tensor B :=
  Build (shape t) (fmap f (data t)).

(** [tf.reshape(t, dims)]: at most one dimension may be [-1], it is
    inferred from the number of elements. *)
Definition known_prod (dims : list Z) : Z :=
  dim_prod (List.filter (fun d => negb (d =? -1)) dims).

Definition count_infer (dims : list Z) : nat :=
  length (List.filter (fun d => d =? -1) dims).

Definition reshape {A} (t : tensor A) (dims : list Z) : result (tensor A) :=
  if existsb (fun d => d <? -1) dims then Raise InvalidArgumentError
  else match count_infer dims with
       | O =>
           if dim_prod dims =? numel t then Ok (Build dims (data t))
           else Raise InvalidArgumentError
       | S O =>
           let k := known_prod dims in
           if k =? 0 then Raise InvalidArgumentError
           else if numel t mod k =? 0
                then Ok (Build
                           (fmap
                              (fun d => if d =? -1 then numel t / k else d)
                              dims)
                           (data t))
                else Raise InvalidArgumentError
       | _ => Raise InvalidArgumentError
       end.

(** [t[..., a:b]] for constants [0 <= a <= b]: the slice of the last
    axis, clipped to the axis as Python slices are. *)
Definition slice_last {A} (a b : nat) (t : tensor A) : tensor A :=
  let d := Z.to_nat (last_dim (shape t)) in
  Build (leading (shape t) ++ [Z.of_nat (Nat.min b d - Nat.min a d)])
        (concat (fmap (fun r => take (b - a) (drop a r)) (rows_of t))).

(** Concatenation along the last axis, [tf.concat(ts, axis=rank-1)] and
    [torch.cat(ts, dim=-1)]: row [i] of the result is row [i] of every
    operand, one after the other. [e] is the exception of the library
    at hand. *)
Definition concat_rows {A} (rss : list (list (list A))) : list (list A) :=
  match rss with
  | [] => []
  | rs :: rest => fold_left (zip_with app) rest rs
  end.

Definition concat_last {A} (e : Exn) (ts : list (tensor A))
  : result (tensor A) :=
  match ts with
  | [] => Raise e
  | t :: rest =>
      if forallb (fun u => shape_eqb (leading (shape u)) (leading (shape t))
                           && negb (shape_eqb (shape u) [])) ts
      then Ok (Build
                 (leading (shape t)
                  ++ [foldr Z.add 0 (fmap (fun u => last_dim (shape u)) ts)])
                 (concat (concat_rows (fmap rows_of ts))))
      else Raise e
  end.

(** Stacking along a new first axis: [torch.stack], and the result of
    [tf.map_fn]. *)
Definition stack {A} (e : Exn) (ts : list (tensor A)) : result (tensor A) :=
  match ts with
  | [] => Raise e
  | t :: rest =>
      if forallb (fun u => shape_eqb (shape u) (shape t)) rest
      then Ok (Build (Z.of_nat (length ts) :: shape t)
                     (concat (fmap data ts)))
      else Raise e
  end.

(** Row-major strides of a shape. *)
Fixpoint strides (s : list Z) : list Z :=
  match s with
  | [] => []
  | _ :: s' => dim_prod s' :: strides s'
  end.

(** The multi-index of linear position [j] in shape [s]. *)
Definition unravel (s : list Z) (j : Z) : list Z :=
  zip_with (fun st d => (j / st) mod d) (strides s) s.

Definition is_perm (dims : list nat) : bool :=
  bool_decide (Permutation dims (seq 0 (length dims))).

(** [t.permute(d0, d1, ...)]. *)
Definition permute {A} (t : tensor A) (dims : list nat) : result (tensor A) :=
  if negb (length dims =? rank t)%nat then Raise RuntimeError
  else if negb (is_perm dims) then Raise RuntimeError
  else
    let oshape := omap (fun i => shape t !! i) dims in
    let istr := omap (fun i => strides (shape t) !! i) dims in
    let offset j := foldr Z.add 0 (zip_with Z.mul (unravel oshape j) istr) in
    Ok (Build oshape
              (omap (fun j => data t !! Z.to_nat (offset j))
                    (seqZ 0 (dim_prod oshape)))).

(** [torch.split(t, size, dim=-1)]: consecutive chunks of [size]
    columns, the last one shorter when [size] does not divide the axis;
    one empty chunk for an empty axis. *)
Definition num_chunks (size d : nat) : nat :=
  Nat.max 1 ((d + size - 1) / size).

Definition split_last {A} (size : nat) (t : tensor A)
  : result (list (tensor A)) :=
  match shape t with
  | [] => Raise RuntimeError
  | _ =>
      let d := Z.to_nat (last_dim (shape t)) in
      Ok (fmap (fun j => slice_last (j * size) (j * size + size) t)
                   (seq 0 (num_chunks size d)))
  end.

End Tensor.

Import Tensor.

(** ** Strings: the pieces of [str] and [pathlib] the converter uses *)

Module Py.

Definition chars (s : string) : list ascii := list_ascii_of_string s.
Definition of_chars (l : list ascii) : string := string_of_list_ascii l.

Definition is_digit (c : ascii) : bool :=
  let n := nat_of_ascii c in ((48 <=? n) && (n <=? 57))%nat.

Definition digit_value (c : ascii) : Z := Z.of_nat (nat_of_ascii c) - 48.

(** White space that [int] strips: tab, line feed, vertical tab, form
    feed, carriage return, the four separators 28..31 and space. *)
Definition is_space (c : ascii) : bool :=
  let n := nat_of_ascii c in
  (((9 <=? n) && (n <=? 13)) || ((28 <=? n) && (n <=? 32)))%nat.

Fixpoint lstrip (l : list ascii) : list ascii :=
  match l with
  | c :: l' => if is_space c then lstrip l' else l
  | [] => []
  end.

Definition strip (l : list ascii) : list ascii :=
  rev (lstrip (rev (lstrip l))).

(** Decimal digits, single underscores allowed between two digits. *)
Fixpoint digits (acc : Z) (after_digit : bool) (l : list ascii) : option Z :=
  match l with
  | [] => if after_digit then Some acc else None
  | c :: l' =>
      if is_digit c then digits (10 * acc + digit_value c) true l'
      else if Ascii.eqb c "_"
           then (if after_digit then digits acc false l' else None)
           else None
  end.

(** [int(s)] on a string of ASCII characters. *)
Definition int (s : string) : result Z :=
  let body :=
    match strip (chars s) with
    | c :: l' =>
        if Ascii.eqb c "-" then Z.opp <$> digits 0 false l'
        else if Ascii.eqb c "+" then digits 0 false l'
        else digits 0 false (c :: l')
    | [] => None
    end in
  match body with
  | Some n => Ok n
  | None => Raise ValueError
  end.

(** [s.split(sep)[0]]: what comes before the first separator. *)
Fixpoint before (sep : ascii) (l : list ascii) : list ascii :=
  match l with
  | [] => []
  | c :: l' => if Ascii.eqb c sep then [] else c :: before sep l'
  end.

(** [s.rfind(c)]. *)
Fixpoint rfind (c : ascii) (l : list ascii) : option nat :=
  match l with
  | [] => None
  | x :: l' =>
      match rfind c l' with
      | Some i => Some (S i)
      | None => if Ascii.eqb x c then Some O else None
      end
  end.

(** [PurePath.stem] of a final path component: the name without its
    last suffix; a leading or a trailing dot starts no suffix. *)
Definition stem (name : string) : string :=
  let l := chars name in
  match rfind "." l with
  | Some i =>
      if ((0 <? i) && (i <? length l - 1))%nat then of_chars (take i l)
      else name
  | None => name
  end.

Fixpoint ends_with (suffix l : list ascii) : bool :=
  if bool_decide (l = suffix) then true
  else match l with
       | [] => false
       | _ :: l' => ends_with suffix l'
       end.

(** [sorted] compares the names code point by code point. *)
Definition le (a b : string) : Prop := String.leb a b = true.

#[global] Instance le_dec a b : Decision (le a b) :=
  decide (String.leb a b = true).

(** [l[:n]]: a negative [n] counts from the end. *)
Definition slice_to {A} (n : Z) (l : list A) : list A :=
  if n <? 0 then take (length l - Z.to_nat (- n)) l
  else take (Z.to_nat n) l.

(** Unpacking [a, b = xs]. *)
Definition unpack2 {A} (xs : list A) : result (A * A) :=
  match xs with
  | [a; b] => Ok (a, b)
  | _ => Raise ValueError
  end.

End Py.

(** ** Files *)

(** A compressed image payload is represented by what [decode_jpeg]
    makes of it: an image of some height, width and number of channels
    with its 8-bit samples, or bytes that are no image. *)
Inductive Payload : Type :=
| Image (height width channels : Z) (pixels : list Z)
| Garbage.

(** The value of one feature of a serialized example. *)
Inductive Feature : Type :=
| BytesList (values : list Payload)
| FloatList (values : list R)
| Int64List (values : list Z).

(** One raw record of an input shard: a serialized example (its feature
    map), or bytes that do not parse as one. *)
Inductive RawRecord : Type :=
| Serialized (features : gmap string Feature)
| Unparsable.

(** [Scene = collections.namedtuple('Scene', ['frames', 'cameras'])] *)
Record Scene : Type := { frames : tensor R; cameras : tensor R }.

(** A file is represented by what its reader makes of it. *)
Inductive File : Type :=
| TFRecordFile (records : list RawRecord)
| ShardFile (scenes : list Scene)
| OtherFile.

(** Directory path to directory, directory entry name to file. *)
Abbreviation Dir := (gmap string File).
Abbreviation FS := (gmap string (gmap string File)).

(** A [pathlib.Path]: the directory and the final component. *)
Record Path : Type := { parent : string; name : string }.

Definition path_join (dir : string) (entry : string) : Path :=
  {| parent := dir; name := entry |}.

Definition read_file (fs : FS) (p : Path) : option File :=
  fs !! parent p ≫= fun d => d !! name p.

(** ** examples/convert_tfrecord_torch.py *)

Module Convert.

Record DatasetInfo : Type := {
  basepath : string;
  train_size : Z;
  test_size : Z;
  frame_size : Z;
  sequence_size : Z
}.

Definition _DATASETS : gmap string DatasetInfo :=
  list_to_map [
    ("jaco"%string,
     {| basepath := "jaco"; train_size := 3600; test_size := 400;
        frame_size := 64; sequence_size := 11 |});
    ("mazes"%string,
     {| basepath := "mazes"; train_size := 1080; test_size := 120;
        frame_size := 84; sequence_size := 300 |});
    ("rooms_free_camera_with_object_rotations"%string,
     {| basepath := "rooms_free_camera_with_object_rotations";
        train_size := 2034; test_size := 226;
        frame_size := 128; sequence_size := 10 |});
    ("rooms_ring_camera"%string,
     {| basepath := "rooms_ring_camera"; train_size := 2160;
        test_size := 240; frame_size := 64; sequence_size := 10 |});
    ("rooms_free_camera_no_object_rotations"%string,
     {| basepath := "rooms_free_camera_no_object_rotations";
        train_size := 2160; test_size := 240;
        frame_size := 64; sequence_size := 10 |});
    ("shepard_metzler_5_parts"%string,
     {| basepath := "shepard_metzler_5_parts"; train_size := 900;
        test_size := 100; frame_size := 64; sequence_size := 15 |});
    ("shepard_metzler_7_parts"%string,
     {| basepath := "shepard_metzler_7_parts"; train_size := 900;
        test_size := 100; frame_size := 64; sequence_size := 15 |})
  ].

Definition _NUM_CHANNELS : Z := 3.
Definition _NUM_RAW_CAMERA_PARAMS : Z := 5.

(** *** TensorFlow operations *)

(** [tf.io.parse_single_example] for one [FixedLenFeature(shape=n)]:
    the feature must be there, of the declared kind, with exactly [n]
    values; the result is a tensor of shape [(n,)]. *)
Definition parse_bytes (n : Z) (f : option Feature) : result (tensor Payload) :=
  match f with
  | Some (BytesList l) =>
      if Z.of_nat (length l) =? n then Ok (Build [n] l)
      else Raise InvalidArgumentError
  | _ => Raise InvalidArgumentError
  end.

Definition parse_floats (n : Z) (f : option Feature) : result (tensor R) :=
  match f with
  | Some (FloatList l) =>
      if Z.of_nat (length l) =? n then Ok (Build [n] l)
      else Raise InvalidArgumentError
  | _ => Raise InvalidArgumentError
  end.

(** The parsed example: [example["frames"]] and [example["cameras"]]. *)
Record Example : Type := {
  ex_frames : tensor Payload;
  ex_cameras : tensor R
}.

Definition parse_single_example (raw : RawRecord) (n_frames n_cameras : Z)
  : result Example :=
  match raw with
  | Unparsable => Raise InvalidArgumentError
  | Serialized m =>
      fr ← parse_bytes n_frames (m !! "frames"%string);
      cams ← parse_floats n_cameras (m !! "cameras"%string);
      mret {| ex_frames := fr; ex_cameras := cams |}
  end.

(** [tf.image.decode_jpeg] *)
Definition decode_jpeg (p : Payload) : result (tensor Z) :=
  match p with
  | Image h w c px => Ok (Build [h; w; c] px)
  | Garbage => Raise InvalidArgumentError
  end.

(** [tf.image.convert_image_dtype(_, tf.float32)] of 8-bit samples. *)
Definition convert_image_dtype (t : tensor Z) : tensor R :=
  pointwise (fun v => (IZR v * / 255)%R) t.

(** [tf.map_fn] over a tensor of rank 1, run eagerly: [fn] is called on
    the elements in order and the results are written to a tensor array,
    which refuses ([ValueError]) a result whose shape differs from the
    shape of the first one, and is stacked at the end. Of no element at
    all the result is the empty tensor of rank 1. *)
Definition map_fn {A B} (fn : A -> result (tensor B)) (elems : tensor A)
  : result (tensor B) :=
  results ← mapM fn (data elems);
  match results with
  | [] => Ok (Build [0] [])
  | _ => stack ValueError results
  end.

(** [tf.image.resize(images, size, align_corners=True)]. The script
    iterates a dataset eagerly and calls [.numpy()] on tensors, which is
    TensorFlow 2; there [tf.image.resize] has no parameter
    [align_corners], and the call raises [TypeError] before anything is
    computed. *)
Definition resize (images : tensor R) (size : list Z) : result (tensor R) :=
  Raise TypeError.

(** *** The functions of the script *)

Definition _convert_frame_data (jpeg_data : Payload) : result (tensor R) :=
  convert_image_dtype <$> decode_jpeg jpeg_data.

(** [tf.concat] of the one tensor [example["frames"]] is that tensor, and
    [tf.stop_gradient] changes no value. *)
Definition _preprocess_frames (dataset_info : DatasetInfo) (example : Example)
  : result (tensor R) :=
  let frames := ex_frames example in
  flat ← reshape frames [-1];
  frames ← map_fn _convert_frame_data flat;
  let dataset_image_dimensions :=
    [frame_size dataset_info; frame_size dataset_info; _NUM_CHANNELS] in
  frames ← reshape frames
    ([-1; sequence_size dataset_info] ++ dataset_image_dimensions);
  if negb (frame_size dataset_info =? 64) then
    frames ← reshape frames ([-1] ++ dataset_image_dimensions);
    let new_frame_dimensions := [64; 64; _NUM_CHANNELS] in
    frames ← resize frames (take 2 new_frame_dimensions);
    reshape frames
      ([-1; sequence_size dataset_info] ++ new_frame_dimensions)
  else mret frames.

Definition _preprocess_cameras (dataset_info : DatasetInfo) (example : Example)
  : result (tensor R) :=
  let raw_pose_params := ex_cameras example in
  raw_pose_params ← reshape raw_pose_params
    [-1; sequence_size dataset_info; _NUM_RAW_CAMERA_PARAMS];
  let pos := slice_last 0 3 raw_pose_params in
  let yaw := slice_last 3 4 raw_pose_params in
  let pitch := slice_last 4 5 raw_pose_params in
  concat_last InvalidArgumentError
    [pos; pointwise sin yaw; pointwise cos yaw;
     pointwise sin pitch; pointwise cos pitch].

Definition convert_raw_to_gzip (dataset_info : DatasetInfo) (raw_data : RawRecord)
  : result Scene :=
  example ← parse_single_example raw_data
    (sequence_size dataset_info)
    (sequence_size dataset_info * _NUM_RAW_CAMERA_PARAMS);
  frames ← _preprocess_frames dataset_info example;
  cameras ← _preprocess_cameras dataset_info example;
  mret {| frames := frames; cameras := cameras |}.

(** [count] fits the 64-bit integer tensor that [Dataset.take] makes of
    it. *)
Definition is_int64 (count : Z) : bool :=
  (- 2 ^ 63 <=? count) && (count <? 2 ^ 63).

(** [tf.data.TFRecordDataset(path).take(count)], iterated. [take]
    converts its argument to a 64-bit integer tensor when it is called,
    before any record is read, and raises [ValueError] for a count
    outside that range; a negative count takes every record, and a count
    of zero never opens the file. *)
Definition take_records (fs : FS) (path : Path) (count : Z)
  : result (list RawRecord) :=
  if negb (is_int64 count) then Raise ValueError
  else if count =? 0 then Ok []
  else match read_file fs path with
       | None => Raise NotFoundError
       | Some (TFRecordFile records) =>
           Ok (if count <? 0 then records else take (Z.to_nat count) records)
       | Some _ => Raise DataLossError
       end.

(** The name of the output shard: [f"{base_name}.pt.gz"]. *)
Definition base_name (path : Path) : result Z :=
  Py.int (Py.of_chars (Py.before "-" (Py.chars (Py.stem (name path))))).

Definition save_name (base : Z) : string := pretty base +:+ ".pt.gz".

(** [with gzip.open(save_path, "wb") as f: torch.save(scene_list, f)].
    A shard file is represented by the scene list pickled into it: the
    bytes of the file (the gzip header holds the time of the write) and
    the module by whose name the pickle refers to the class [Scene] are
    not part of the model. *)
Definition save (fs : FS) (save_path : Path) (scene_list : list Scene)
  : result FS :=
  match fs !! parent save_path with
  | None => Raise FileNotFoundError
  | Some d =>
      Ok (<[parent save_path := <[name save_path := ShardFile scene_list]> d]> fs)
  end.

(** The scene list [convert_record] builds before it saves. *)
Definition build_scene_list (fs : FS) (path : Path) (dataset_name : string)
  (batch_size : Z) : result (list Scene) :=
  match _DATASETS !! dataset_name with
  | None => Raise KeyError
  | Some dataset_info =>
      records ← take_records fs path batch_size;
      mapM (convert_raw_to_gzip dataset_info) records
  end.

(** The new file system, or the exception and the file system as the
    call left it. *)
Definition convert_record (path : Path) (dataset_name : string)
  (save_dir : string) (batch_size : Z) (fs : FS) : result unit * FS :=
  let outcome :=
    scene_list ← build_scene_list fs path dataset_name batch_size;
    base ← base_name path;
    save fs (path_join save_dir (save_name base)) scene_list in
  match outcome with
  | Ok fs' => (Ok tt, fs')
  | Raise e => (Raise e, fs)
  end.

(** *** The driver *)

Record Args : Type := {
  dataset : string;
  mode : string;
  first_n : option Z;
  batch_size : Z
}.

Definition tf_dir (args : Args) : string :=
  "data/" +:+ dataset args +:+ "/" +:+ mode args.

Definition torch_dir (args : Args) : string :=
  "data/" +:+ dataset args +:+ "_torch/" +:+ mode args.

(** [torch_dir.mkdir(parents=True, exist_ok=True)] *)
Definition mkdir (dir : string) (fs : FS) : FS :=
  match fs !! dir with
  | Some _ => fs
  | None => <[dir := ∅]> fs
  end.

(** [sorted(tf_dir.glob("*.tfrecord"))] *)
Definition glob_tfrecord (d : Dir) : list string :=
  filter (fun n => Py.ends_with (Py.chars ".tfrecord") (Py.chars n) = true)
         (map_to_list d).*1.

Definition sorted (names : list string) : list string :=
  merge_sort Py.le names.

(** [pool.map(f, record_list)] with [num_proc] workers. The list is cut
    into chunks of [chunksize] consecutive jobs; a worker runs the jobs
    of a chunk in order and gives the chunk up at its first exception,
    so that the jobs after it in the chunk are never called; every chunk
    is run, and the first exception is raised at the end. The workers
    run at the same time; the model runs the chunks one after the other,
    in list order, which gives the file system of the pool when no two
    jobs write the same file and no job reads what another writes. Which
    jobs are called, and which raise, are those of the pool whenever
    the outcome of a job does not depend on the files the others
    write. *)
Definition chunksize (n num_proc : nat) : nat :=
  let q := (n / (num_proc * 4))%nat in
  if (n mod (num_proc * 4) =? 0)%nat then q else S q.

Fixpoint chunks {A} (fuel size : nat) (l : list A) : list (list A) :=
  match fuel with
  | O => []
  | S fuel' =>
      match l with
      | [] => []
      | _ => take size l :: chunks fuel' size (drop size l)
      end
  end.

Fixpoint run_chunk (f : Path -> FS -> result unit * FS) (jobs : list Path)
  (fs : FS) : result unit * FS :=
  match jobs with
  | [] => (Ok tt, fs)
  | p :: rest =>
      match f p fs with
      | (Ok _, fs') => run_chunk f rest fs'
      | (Raise e, fs') => (Raise e, fs')
      end
  end.

Fixpoint run_chunks (f : Path -> FS -> result unit * FS)
  (batches : list (list Path)) (fs : FS) : result unit * FS :=
  match batches with
  | [] => (Ok tt, fs)
  | c :: rest =>
      let '(r, fs') := run_chunk f c fs in
      let '(r', fs'') := run_chunks f rest fs' in
      (match r with Raise e => Raise e | Ok _ => r' end, fs'')
  end.

Definition pool_map (num_proc : nat) (f : Path -> FS -> result unit * FS)
  (jobs : list Path) (fs : FS) : result unit * FS :=
  run_chunks f
    (chunks (length jobs) (chunksize (length jobs) num_proc) jobs) fs.




(** The files [main] hands to the pool, with the file system after the
    output directory was made. *)
Definition record_list (args : Args) (fs : FS) : result (list Path) * FS :=
  if negb (bool_decide (is_Some (_DATASETS !! dataset args)))
  then (Raise ValueError, fs)
  else
    let fs1 := mkdir (torch_dir args) fs in
    match fs1 !! tf_dir args with
    | None => (Raise FileNotFoundError, fs1)
    | Some d =>
        let record_list := path_join (tf_dir args) <$> sorted (glob_tfrecord d) in
        let record_list :=
          match first_n args with
          | Some n => Py.slice_to n record_list
          | None => record_list
          end in
        (Ok record_list, fs1)
    end.

(** [cpu_count] is [mp.cpu_count()]. *)
Definition main (args : Args) (cpu_count : nat) (fs : FS) : result unit * FS :=
  match record_list args fs with
  | (Raise e, fs1) => (Raise e, fs1)
  | (Ok jobs, fs1) =>
      pool_map cpu_count
               (fun p => convert_record p (dataset args) (torch_dir args)
                                        (batch_size args))
               jobs fs1
  end.


End Convert.

(** ** gqnlib/scene_dataset.py *)

Module SceneDataset.

(** [torch.split] into position, yaw and pitch, then [torch.cat]. *)
Definition transform_viewpoint (viewpoints : tensor R) : result (tensor R) :=
  chunks ← split_last 3 viewpoints;
  '(pos, tmp) ← Py.unpack2 chunks;
  chunks ← split_last 1 tmp;
  '(yaw, pitch) ← Py.unpack2 chunks;
  let view := [pos; pointwise cos yaw; pointwise sin yaw;
               pointwise cos pitch; pointwise sin pitch] in
  concat_last RuntimeError view.

Record t : Type := { root_dir : string }.

(** [len(list(self.root_dir.iterdir()))] *)
Definition __len__ (self : t) (fs : FS) : result nat :=
  match fs !! root_dir self with
  | Some d => Ok (size d)
  | None => Raise FileNotFoundError
  end.

Definition filename (index : Z) : string := pretty index +:+ ".pt.gz".

(** [gzip.open(self.root_dir / filename, "rb")] and [torch.load], for a
    program in which the pickled objects of the file can be rebuilt: the
    class [Scene] must be found under the module name the writer gave it
    ([AttributeError] otherwise, which is not modelled). *)
Definition load (self : t) (index : Z) (fs : FS) : result (list Scene) :=
  match read_file fs (path_join (root_dir self) (filename index)) with
  | None => Raise FileNotFoundError
  | Some (ShardFile dataset) => Ok dataset
  | Some _ => Raise OSError
  end.

Definition __getitem__ (self : t) (index : Z) (fs : FS)
  : result (tensor R * tensor R) :=
  dataset ← load self index fs;
  images ← stack RuntimeError (frames <$> dataset);
  viewpoints ← stack RuntimeError (cameras <$> dataset);
  images ← permute images [0; 1; 4; 2; 3]%nat;
  viewpoints ← transform_viewpoint viewpoints;
  mret (images, viewpoints).

End SceneDataset.

(** ** gqnlib/scheduler.py *)

Module Scheduler.

(** [Annealer]: the three arguments of the constructor, the step
    counter [t] and the value [current]. *)
Record Annealer : Type := {
  init : R;
  final : R;
  steps : Z;
  t : Z;
  current : R
}.

(** [Annealer(init, final, steps)] *)
Definition new (init final : R) (steps : Z) : Annealer :=
  {| init := init; final := final; steps := steps; t := 0; current := init |}.

(** The value of step [t]:
    [max(final + (init - final) * (1 - t / steps), final)]. *)
Definition value_at (init final : R) (steps t : Z) : R :=
  Rmax (final + (init - final) * (1 - IZR t / IZR steps)) final.

(** [__next__]: the value, or [None] for the [ZeroDivisionError] of
    [self.t / self.steps], and the object after the call. The counter is
    incremented before the division. *)
Definition __next__ (self : Annealer) : option R * Annealer :=
  let t' := t self + 1 in
  if steps self =? 0
  then (None, {| init := init self; final := final self; steps := steps self;
                 t := t'; current := current self |})
  else
    let value := value_at (init self) (final self) (steps self) t' in
    (Some value, {| init := init self; final := final self;
                    steps := steps self; t := t'; current := value |}).

(** [k] calls of [next], one after the other. *)
Fixpoint iterate (k : nat) (self : Annealer) : list (option R) * Annealer :=
  match k with
  | O => ([], self)
  | S k' =>
      let '(v, self1) := __next__ self in
      let '(vs, self2) := iterate k' self1 in
      (v :: vs, self2)
  end.

(** [AnnealingStepLR]: its own fields, and the two fields of
    [_LRScheduler] that [get_lr] reads. *)
Record AnnealingStepLR : Type := {
  mu_i : R;
  mu_f : R;
  n : R;
  last_epoch : Z;
  base_lrs : list R
}.

(** [get_lr]: one rate per parameter group; [None] for the
    [ZeroDivisionError] of [self.last_epoch / self.n], which an empty
    list of groups never evaluates. *)
Definition get_lr (self : AnnealingStepLR) : option (list R) :=
  match base_lrs self with
  | [] => Some []
  | _ =>
      if Req_dec_T (n self) 0 then None
      else Some ((fun base_lr =>
                    Rmax (mu_f self
                          + (mu_i self - mu_f self)
                            * (1 - IZR (last_epoch self) / n self))
                         (mu_f self))
                   <$> base_lrs self)
  end.

End Scheduler.

(** ** Vocabulary of the statements *)

(** A raw camera pose, [(x, y, z, yaw, pitch)]. *)
Record Pose : Type := { pos_x : R; pos_y : R; pos_z : R; yaw : R; pitch : R }.

Definition raw_row (p : Pose) : list R :=
  [pos_x p; pos_y p; pos_z p; yaw p; pitch p].

(** The elements of a raw pose array, row after row. *)
Definition raw_poses (poses : list Pose) : list R := concat (raw_row <$> poses).

(** The tensor of leading shape [s] whose slices along the last axis are
    the rows [rs], each of [d] elements. *)
Definition of_rows {A} (s : list Z) (d : nat) (rs : list (list A)) : tensor A :=
  Build (s ++ [Z.of_nat d]) (concat rs).

(** A raw pose array of leading shape [s]. *)
Definition pose_array (s : list Z) (poses : list Pose) : tensor R :=
  of_rows s 5 (raw_row <$> poses).

(** The example parsed from a record with frames [fr] and the raw poses
    [poses]. *)
Definition example_of (info : Convert.DatasetInfo) (fr : tensor Payload)
  (poses : list Pose) : Convert.Example :=
  {| Convert.ex_frames := fr;
     Convert.ex_cameras :=
       Build [Convert.sequence_size info * Convert._NUM_RAW_CAMERA_PARAMS]
             (raw_poses poses) |}.

(** The order the specification calls canonical: sine before cosine,
    yaw before pitch. *)
Definition sin_cos_row (p : Pose) : list R :=
  [pos_x p; pos_y p; pos_z p;
   sin (yaw p); cos (yaw p); sin (pitch p); cos (pitch p)].

(** The order of the docstring of [transform_viewpoint]: cosine first. *)
Definition cos_sin_row (p : Pose) : list R :=
  [pos_x p; pos_y p; pos_z p;
   cos (yaw p); sin (yaw p); cos (pitch p); sin (pitch p)].

(** The fields of a record match the shapes declared for the data set:
    [sequence_size] image payloads and [5 * sequence_size] numbers. *)
Definition fields_match (info : Convert.DatasetInfo) (r : RawRecord) : bool :=
  match r with
  | Serialized m =>
      match m !! "frames"%string, m !! "cameras"%string with
      | Some (BytesList imgs), Some (FloatList cams) =>
          (Z.of_nat (length imgs) =? Convert.sequence_size info)
          && (Z.of_nat (length cams) =? Convert.sequence_size info * 5)
      | _, _ => false
      end
  | Unparsable => false
  end.

Definition is_frame (size : Z) (p : Payload) : bool :=
  match p with
  | Image h w c px =>
      (h =? size) && (w =? size) && (c =? 3)
      && (Z.of_nat (length px) =? h * w * c)
  | Garbage => false
  end.

Definition payloads (r : RawRecord) : list Payload :=
  match r with
  | Serialized m =>
      match m !! "frames"%string with
      | Some (BytesList imgs) => imgs
      | _ => []
      end
  | Unparsable => []
  end.

(** A well-formed record: the fields match, and every payload is an
    image of the frame size of the data set, with three channels. *)
Definition well_formed (info : Convert.DatasetInfo) (r : RawRecord) : bool :=
  fields_match info r && forallb (is_frame (Convert.frame_size info)) (payloads r).

(** Both call sites produce the canonical order on the poses [poses]:
    the conversion of a record of the data set [info], and the loader on
    the same array. *)
Definition canonical_at_both_sites (info : Convert.DatasetInfo)
  (poses : list Pose) : Prop :=
  Convert._preprocess_cameras info (example_of info (Build [0] []) poses)
  = Ok (of_rows [1; Convert.sequence_size info] 7 (sin_cos_row <$> poses))
  /\ SceneDataset.transform_viewpoint
       (pose_array [1; Convert.sequence_size info] poses)
     = Ok (of_rows [1; Convert.sequence_size info] 7 (sin_cos_row <$> poses)).

Definition rooms_ring_camera : Convert.DatasetInfo :=
  {| Convert.basepath := "rooms_ring_camera"; Convert.train_size := 2160;
     Convert.test_size := 240; Convert.frame_size := 64;
     Convert.sequence_size := 10 |}.

Definition origin : Pose :=
  {| pos_x := 0; pos_y := 0; pos_z := 0; yaw := 0; pitch := 0 |}.

(** The number a string of decimal digits denotes. *)
Definition decimal (ds : list ascii) : Z :=
  fold_left (fun acc c => 10 * acc + Py.digit_value c) ds 0.

Definition all_digits (ds : list ascii) : Prop :=
  ds <> [] /\ Forall (fun c => Py.is_digit c = true) ds.

(** An input shard name [<ordinal>-of-<total>.<ext>]. *)
Definition shard_file_name (ordinal total ext : string) : string :=
  ordinal +:+ "-of-" +:+ total +:+ "." +:+ ext.

(** The name of the file [convert_record] writes for an input path. *)
Definition output_name (path : Path) : result string :=
  Convert.save_name <$> Convert.base_name path.

(** The output keeps the extension of the input:
    [<shard_index>.<ext>.gz]. *)
Definition output_keeps_extension (dir ordinal total ext : string) : Prop :=
  output_name (path_join dir (shard_file_name ordinal total ext))
  = Ok (pretty (decimal (Py.chars ordinal)) +:+ "." +:+ ext +:+ ".gz").

(** The records [convert_record] processes: the first [batch_size] of
    the file (all of them for a negative [batch_size]). *)
Definition processed (batch_size : Z) (records : list RawRecord)
  : list RawRecord :=
  if batch_size <? 0 then records else take (Z.to_nat batch_size) records.

(** The conversion of the shard raises the decoding error and leaves
    the file system as it was, whenever a processed record has fields
    that do not match. *)
Definition raises_decoding_error (info : Convert.DatasetInfo) (fs : FS)
  (path : Path) (dataset_name save_dir : string) (batch_size : Z) : Prop :=
  forall records : list RawRecord,
    read_file fs path = Some (TFRecordFile records) ->
    Exists (fun r => fields_match info r = false)
           (processed batch_size records) ->
    Convert.convert_record path dataset_name save_dir batch_size fs
    = (Raise InvalidArgumentError, fs).

(** *** Concrete inputs *)

(** A black frame of 64 by 64 pixels. *)
Definition black_frame : Payload :=
  Image 64 64 3 (replicate (64 * 64 * 3) 0).

(** A well-formed record of [rooms_ring_camera]: ten black frames, the
    camera at the origin. *)
Definition black_record : RawRecord :=
  Serialized
    (<["frames"%string := BytesList (replicate 10 black_frame)]>
       (<["cameras"%string := FloatList (raw_poses (replicate 10 origin))]> ∅)).

(** An input directory with one shard of one record, and an empty
    output directory. *)
Definition one_shard_fs : FS :=
  <["in"%string := {["1-of-1.tfrecord"%string := TFRecordFile [black_record]]}]>
    (<["out"%string := ∅]> ∅).

(** The same with a second record, one that does not parse. *)
Definition excess_fs : FS :=
  <["in"%string :=
      {["1-of-1.tfrecord"%string := TFRecordFile [black_record; Unparsable]]}]>
    (<["out"%string := ∅]> ∅).

(** A record whose fields match, with a first frame of 32 by 32 pixels
    before nine frames of 64 by 64. *)
Definition two_sizes_record : RawRecord :=
  Serialized
    (<["frames"%string :=
         BytesList (Image 32 32 3 (replicate (32 * 32 * 3) 0)
                    :: replicate 9 black_frame)]>
       (<["cameras"%string := FloatList (raw_poses (replicate 10 origin))]> ∅)).

(** A shard of that record and of one that does not parse. *)
Definition two_sizes_fs : FS :=
  <["in"%string :=
      {["1-of-1.tfrecord"%string
        := TFRecordFile [two_sizes_record; Unparsable]]}]>
    (<["out"%string := ∅]> ∅).

(** A shard whose only scene has one frame of one pixel and one
    viewpoint already in the final form of seven components. *)
Definition final_form_scene : Scene :=
  {| frames := Build [1; 1; 1; 3] [0; 0; 0]%R;
     cameras := of_rows [1] 7 [sin_cos_row origin] |}.

Definition final_form_fs : FS :=
  {["out"%string := {["1.pt.gz"%string := ShardFile [final_form_scene]]}]}.

(** The same shard with the raw pose stored. *)
Definition raw_scene : Scene :=
  {| frames := Build [1; 1; 1; 3] [0; 0; 0]%R;
     cameras := pose_array [1] [origin] |}.

Definition raw_fs : FS :=
  {["out"%string := {["1.pt.gz"%string := ShardFile [raw_scene]]}]}.


(** An input directory of three entries, two of them shards. *)
Definition three_entries : Dir :=
  <["2-of-2.tfrecord"%string := TFRecordFile []]>
    (<["1-of-2.tfrecord"%string := TFRecordFile [black_record]]>
       {["notes.txt"%string := OtherFile]}).

Definition three_entries_fs : FS :=
  {["data/rooms_ring_camera/train"%string := three_entries]}.

Definition first_shard_args : Convert.Args :=
  {| Convert.dataset := "rooms_ring_camera"; Convert.mode := "train";
     Convert.first_n := Some 1; Convert.batch_size := 16 |}.

(** Every job of the list was run, in order, and none raised. *)
Inductive runs (f : Path -> FS -> result unit * FS)
  : list Path -> FS -> FS -> Prop :=
| runs_nil fs : runs f [] fs fs
| runs_cons p ps fs fs1 fs2 :
    f p fs = (Ok tt, fs1) -> runs f ps fs1 fs2 -> runs f (p :: ps) fs fs2.








(** The loader leaves the stored viewpoints as they are: what it returns
    for a shard is their stack, not a transform of it. *)
Definition returns_stored_viewpoints (self : SceneDataset.t) (index : Z)
  (fs : FS) : Prop :=
  forall scenes : list Scene,
    SceneDataset.load self index fs = Ok scenes ->
    exists images viewpoints,
      SceneDataset.__getitem__ self index fs = Ok (images, viewpoints)
      /\ stack RuntimeError (cameras <$> scenes) = Ok viewpoints.

(** *** Further vocabulary *)

Definition unknown_args : Convert.Args :=
  {| Convert.dataset := "cifar"; Convert.mode := "train";
     Convert.first_n := Some 100; Convert.batch_size := 16 |}.

(** A scene as the loader expects it: frames on four axes and the raw
    poses of the camera, one per frame. *)
Definition raw_scene_of (item : tensor R * list Pose) : Scene :=
  {| frames := item.1;
     cameras := pose_array [Z.of_nat (length item.2)] item.2 |}.

(** The payload decodes to an image of the given height, width and
    number of channels. *)
Definition decodes_to (h w c : Z) (p : Payload) : Prop :=
  exists px, p = Image h w c px.

(** A record of [rooms_ring_camera] whose ten frames are twice as high
    as the frame size. *)
Definition tall_frames : list Payload :=
  replicate 10 (Image 128 64 3 (replicate (128 * 64 * 3) 0)).

(** Ten gray-scale frames of the frame size. *)
Definition gray_frames : list Payload :=
  replicate 10 (Image 64 64 1 (replicate (64 * 64) 0)).

(** A data set of the catalog with frames of 128 pixels, and a
    well-formed record of it. *)
Definition rooms_free_camera_with_object_rotations : Convert.DatasetInfo :=
  {| Convert.basepath := "rooms_free_camera_with_object_rotations";
     Convert.train_size := 2034; Convert.test_size := 226;
     Convert.frame_size := 128; Convert.sequence_size := 10 |}.

Definition large_record : RawRecord :=
  Serialized
    (<["frames"%string :=
         BytesList
           (replicate 10 (Image 128 128 3 (replicate (128 * 128 * 3) 0)))]>
       (<["cameras"%string := FloatList (raw_poses (replicate 10 origin))]> ∅)).

(** The position of element [(b, s, y, x, ch)] of a channel-last array
    and of element [(b, s, ch, y, x)] of a channel-first one, for [n]
    frames of [h] by [w] pixels and [c] channels. *)
Definition channel_last_pos (n h w c b s y x ch : Z) : Z :=
  (((b * n + s) * h + y) * w + x) * c + ch.

Definition channel_first_pos (n h w c b s y x ch : Z) : Z :=
  (((b * n + s) * c + ch) * h + y) * w + x.

(** Two input shards, the second one without records, and an empty
    output directory. *)
Definition two_shards_fs : FS :=
  <["in"%string :=
      <["2-of-2.tfrecord"%string := TFRecordFile []]>
        {["1-of-2.tfrecord"%string := TFRecordFile [black_record]]}]>
    (<["out"%string := ∅]> ∅).

(** Two input shards whose names denote the same ordinal. *)
Definition same_ordinal_fs : FS :=
  <["in"%string :=
      <["01-of-1.tfrecord"%string := TFRecordFile []]>
        {["1-of-1.tfrecord"%string := TFRecordFile [black_record]]}]>
    (<["out"%string := ∅]> ∅).

Definition all_but_last_args : Convert.Args :=
  {| Convert.dataset := "rooms_ring_camera"; Convert.mode := "train";
     Convert.first_n := Some (-1); Convert.batch_size := 16 |}.

(** * Properties *)

(** ** The result monad *)

Section Result.
Context {A B : Type}.

Lemma bind_Ok (f : A -> result B) (v : A) : Ok v ≫= f = f v.
Proof. reflexivity. Qed.

Lemma bind_Raise (f : A -> result B) (e : Exn) : Raise e ≫= f = Raise e.
Proof. reflexivity. Qed.

Lemma mapM_Ok_length (f : A -> result B) (l : list A) (k : list B) :
  mapM f l = Ok k -> length k = length l.
Proof.
  revert k. induction l as [|a l IH]; intros k; simpl.
  - intros [= <-]. reflexivity.
  - destruct (f a) as [b|e]; simpl; [|discriminate].
    destruct (mapM f l) as [k'|e]; simpl; [|discriminate].
    intros [= <-]. simpl. f_equal. apply IH. reflexivity.
Qed.

Lemma mapM_Ok_Forall2 (f : A -> result B) (l : list A) (k : list B) :
  mapM f l = Ok k <-> Forall2 (fun a b => f a = Ok b) l k.
Proof.
  revert k. induction l as [|a l IH]; intros k; simpl.
  - split.
    + intros [= <-]. constructor.
    + inversion 1. reflexivity.
  - split.
    + destruct (f a) as [b|e] eqn:Ha; simpl; [|discriminate].
      destruct (mapM f l) as [k'|e] eqn:Hl; simpl; [|discriminate].
      intros [= <-]. constructor; [exact Ha|]. apply IH. reflexivity.
    + inversion 1 as [|? b ? k' Ha Hl]; subst. rewrite Ha. simpl.
      apply IH in Hl. rewrite Hl. reflexivity.
Qed.

Lemma mapM_all_Ok (f : A -> result B) (l : list A) :
  Forall (fun a => is_Ok (f a) = true) l -> exists k, mapM f l = Ok k.
Proof.
  induction 1 as [|a l Ha _ [k Hk]]; simpl.
  - eexists. reflexivity.
  - destruct (f a) as [b|e]; [|discriminate]. rewrite Hk. simpl.
    eexists. reflexivity.
Qed.

(** The exception of [mapM] is the one of the first element that
    raises. *)
Lemma mapM_first_Raise (f : A -> result B) (l : list A) :
  Exists (fun a => is_Ok (f a) = false) l ->
  exists before a after e,
    l = before ++ a :: after
    /\ Forall (fun x => is_Ok (f x) = true) before
    /\ f a = Raise e
    /\ mapM f l = Raise e.
Proof.
  induction l as [|x l IH]; intros H; [inversion H|].
  destruct (f x) as [b|e] eqn:Hx.
  - assert (Hl : Exists (fun a => is_Ok (f a) = false) l).
    { inversion H as [? ? Hbad|]; subst; [|assumption].
      rewrite Hx in Hbad. discriminate. }
    destruct (IH Hl) as (before & a & after & e & -> & Hb & Ha & Hm).
    exists (x :: before), a, after, e. split; [reflexivity|].
    split; [constructor; [rewrite Hx; reflexivity|exact Hb]|].
    split; [exact Ha|]. simpl. rewrite Hx. simpl. rewrite Hm. reflexivity.
  - exists [], x, l, e. split; [reflexivity|]. split; [constructor|].
    split; [exact Hx|]. simpl. rewrite Hx. reflexivity.
Qed.

End Result.

(** ** Tensors *)

Section TensorFacts.
Context {A : Type}.
Implicit Types (t : tensor A) (rs : list (list A)) (s : list Z).

Lemma rows_concat (d : nat) rs :
  Forall (fun r => length r = d) rs -> rows (length rs) d (concat rs) = rs.
Proof.
  induction 1 as [|r rs Hr _ IH]; simpl; [reflexivity|].
  rewrite take_app_length', drop_app_length' by (symmetry; exact Hr).
  rewrite IH. reflexivity.
Qed.

Lemma leading_snoc s (d : Z) : leading (s ++ [d]) = s.
Proof. unfold leading. apply removelast_last. Qed.

Lemma last_dim_snoc s (d : Z) : last_dim (s ++ [d]) = d.
Proof. unfold last_dim. apply last_last. Qed.

Lemma rows_of_concat s (d : nat) rs :
  length rs = Z.to_nat (dim_prod s) ->
  Forall (fun r => length r = d) rs ->
  rows_of (Build (s ++ [Z.of_nat d]) (concat rs)) = rs.
Proof.
  intros Hn Hd. unfold rows_of. simpl.
  rewrite leading_snoc, last_dim_snoc, Nat2Z.id, <- Hn.
  apply rows_concat. exact Hd.
Qed.

Lemma dim_prod_pos s : Forall (fun d => 0 < d) s -> 0 < dim_prod s.
Proof. induction 1; simpl; lia. Qed.

Lemma filter_positive_dims s :
  Forall (fun d => 0 < d) s ->
  List.filter (fun d => negb (d =? -1)) s = s
  /\ List.filter (fun d => d =? -1) s = []
  /\ existsb (fun d => d <? -1) s = false.
Proof.
  induction 1 as [|d s Hd _ (IH1 & IH2 & IH3)]; simpl; [auto|].
  destruct (Z.eqb_spec d (-1)); [lia|].
  destruct (Z.ltb_spec d (-1)); [lia|]. simpl.
  rewrite IH1, IH2, IH3. auto.
Qed.

(** [tf.reshape(t, (-1,) + dims)] when the number of elements is a
    multiple of the product of [dims]. *)
Lemma reshape_infer t (dims : list Z) :
  Forall (fun d => 0 < d) dims ->
  numel t mod dim_prod dims = 0 ->
  reshape t (-1 :: dims)
  = Ok (Build (numel t / dim_prod dims :: dims) (data t)).
Proof.
  intros Hpos Hmod. pose proof (dim_prod_pos _ Hpos) as Hk.
  destruct (filter_positive_dims _ Hpos) as (F1 & F2 & F3).
  unfold reshape, count_infer, known_prod. simpl.
  rewrite F1, F2, F3. simpl.
  destruct (Z.eqb_spec (dim_prod dims) 0); [lia|].
  rewrite Hmod. simpl. do 3 f_equal.
  generalize (numel t / dim_prod dims). intros q.
  clear -Hpos. induction Hpos as [|d s Hd _ IH]; simpl; [reflexivity|].
  destruct (Z.eqb_spec d (-1)); [lia|]. rewrite IH. reflexivity.
Qed.

Lemma zip_with_app_fmap {B} (f g : B -> list A) (l : list B) :
  zip_with app (f <$> l) (g <$> l) = (fun b => f b ++ g b) <$> l.
Proof. induction l as [|b l IH]; simpl; [reflexivity|]. f_equal. exact IH. Qed.

Lemma stack_shape (e : Exn) (ts : list (tensor A)) s :
  ts <> [] -> Forall (fun u => shape u = s) ts ->
  stack e ts = Ok (Build (Z.of_nat (length ts) :: s) (concat (data <$> ts))).
Proof.
  destruct ts as [|t rest]; [congruence|]. intros _ Hall.
  inversion Hall as [|? ? Ht Hrest]; subst. unfold stack.
  replace (forallb _ rest) with true; [reflexivity|].
  symmetry. apply forallb_forall. intros u Hu.
  rewrite Forall_forall in Hrest. unfold shape_eqb.
  apply bool_decide_eq_true. apply Hrest. apply list_elem_of_In. exact Hu.
Qed.

Lemma stack_Ok_shape (e : Exn) (ts : list (tensor A)) (r : tensor A) :
  stack e ts = Ok r ->
  exists t, head ts = Some t /\ shape r = Z.of_nat (length ts) :: shape t.
Proof.
  destruct ts as [|t rest]; simpl; [discriminate|].
  destruct (forallb _ rest); [|discriminate]. intros [= <-].
  exists t. split; reflexivity.
Qed.

Lemma permute_rank t (dims : list nat) :
  length dims <> rank t -> permute t dims = Raise RuntimeError.
Proof.
  intros Hne. unfold permute.
  destruct (Nat.eqb_spec (length dims) (rank t)); [contradiction|]. reflexivity.
Qed.

End TensorFacts.

(** ** Tensors given by their rows *)

Section Rows.
Context {A : Type}.
Implicit Types (s : list Z) (rs : list (list A)).

Lemma shape_of_rows_nonempty s (d : nat) rs :
  shape (of_rows s d rs) <> [].
Proof. simpl. destruct s; discriminate. Qed.

Lemma rows_of_of_rows {B} s (d : nat) (f : B -> list A) (l : list B) :
  length l = Z.to_nat (dim_prod s) ->
  (forall b, length (f b) = d) ->
  rows_of (of_rows s d (f <$> l)) = f <$> l.
Proof.
  intros Hn Hd. apply rows_of_concat.
  - rewrite length_fmap. exact Hn.
  - apply Forall_fmap, Forall_forall. intros b _. apply Hd.
Qed.

Lemma slice_last_of_rows {B} s (d a b : nat) (f : B -> list A) (l : list B) :
  length l = Z.to_nat (dim_prod s) ->
  (forall x, length (f x) = d) ->
  slice_last a b (of_rows s d (f <$> l))
  = of_rows s (Nat.min b d - Nat.min a d)
            ((fun x => take (b - a) (drop a (f x))) <$> l).
Proof.
  intros Hn Hd. unfold slice_last.
  rewrite (rows_of_of_rows s d f l Hn Hd). simpl.
  rewrite leading_snoc, last_dim_snoc, Nat2Z.id.
  unfold of_rows. rewrite <- list_fmap_compose. reflexivity.
Qed.

Lemma pointwise_of_rows {B} s (d : nat) (g : A -> A) (f : B -> list A)
  (l : list B) :
  pointwise g (of_rows s d (f <$> l))
  = of_rows s d ((fun x => g <$> f x) <$> l).
Proof.
  unfold pointwise, of_rows. simpl. f_equal.
  induction l as [|x l IH]; [reflexivity|].
  rewrite !fmap_cons. simpl concat. rewrite fmap_app, IH. reflexivity.
Qed.

Lemma fold_zip_rows {B} (parts : list (nat * (B -> list A))) (g : B -> list A)
  (l : list B) :
  fold_left (zip_with app) ((fun p => p.2 <$> l) <$> parts) (g <$> l)
  = (fun x => g x ++ concat ((fun p => p.2 x) <$> parts)) <$> l.
Proof.
  revert g. induction parts as [|p parts IH]; intros g; simpl.
  - apply list_fmap_ext. intros _ x _. rewrite app_nil_r. reflexivity.
  - rewrite zip_with_app_fmap, IH.
    apply list_fmap_ext. intros _ x _. rewrite app_assoc. reflexivity.
Qed.

(** Concatenating, along the last axis, tensors whose rows are computed
    from one list: the rows are concatenated. *)
Lemma concat_last_of_rows {B} (e : Exn) s
  (p : nat * (B -> list A)) (parts : list (nat * (B -> list A))) (l : list B) :
  length l = Z.to_nat (dim_prod s) ->
  Forall (fun q => forall x, length (q.2 x) = q.1) (p :: parts) ->
  concat_last e ((fun q => of_rows s q.1 (q.2 <$> l)) <$> (p :: parts))
  = Ok (Build (s ++ [foldr Z.add 0 ((fun q => Z.of_nat q.1) <$> (p :: parts))])
              (concat ((fun x => concat ((fun q => q.2 x) <$> (p :: parts))) <$> l))).
Proof.
  intros Hn Hall.
  set (F := fun q : nat * (B -> list A) => of_rows s q.1 (q.2 <$> l)).
  assert (Hshape : forall q, leading (shape (F q)) = s
                             /\ last_dim (shape (F q)) = Z.of_nat q.1
                             /\ shape (F q) <> []).
  { intros q. unfold F. simpl shape.
    rewrite leading_snoc, last_dim_snoc. repeat split. destruct s; discriminate. }
  assert (Hrows : rows_of <$> (F <$> (p :: parts))
                  = (fun q => q.2 <$> l) <$> (p :: parts)).
  { rewrite <- list_fmap_compose. apply Forall_fmap_ext_1.
    eapply Forall_impl; [exact Hall|]. intros q Hq. simpl.
    apply rows_of_of_rows; [exact Hn|exact Hq]. }
  assert (Hdims : (fun u : tensor A => last_dim (shape u)) <$> (F <$> (p :: parts))
                  = (fun q => Z.of_nat q.1) <$> (p :: parts)).
  { rewrite <- list_fmap_compose. apply list_fmap_ext. intros _ q _. simpl.
    apply Hshape. }
  assert (Hcheck : forallb
                     (fun u => shape_eqb (leading (shape u)) (leading (shape (F p)))
                               && negb (shape_eqb (shape u) []))
                     (F <$> (p :: parts)) = true).
  { apply forallb_forall. intros u Hu. apply in_map_iff in Hu as (q & <- & _).
    destruct (Hshape q) as (E1 & _ & E3). destruct (Hshape p) as (E1' & _ & _).
    unfold shape_eqb. rewrite E1, E1'.
    rewrite bool_decide_eq_true_2 by reflexivity.
    rewrite bool_decide_eq_false_2 by exact E3. reflexivity. }
  unfold concat_last.
  change (F <$> (p :: parts)) with (F p :: (F <$> parts)) in *.
  cbv beta iota. rewrite Hcheck, Hdims, Hrows.
  destruct (Hshape p) as (-> & _ & _). do 3 f_equal.
  simpl. apply fold_zip_rows.
Qed.

Lemma split_last_of_rows s (d size : nat) rs :
  split_last size (of_rows s d rs)
  = Ok ((fun j => slice_last (j * size) (j * size + size) (of_rows s d rs))
          <$> seq 0 (num_chunks size d)).
Proof.
  unfold split_last. simpl shape. rewrite last_dim_snoc, Nat2Z.id.
  destruct (s ++ [Z.of_nat d]) eqn:E; [destruct s; discriminate|]. reflexivity.
Qed.

End Rows.

Lemma unpack2_length {A} (xs : list A) :
  length xs <> 2%nat -> Py.unpack2 xs = Raise ValueError.
Proof. destruct xs as [|a [|b [|c xs]]]; simpl; try reflexivity; lia. Qed.

(** ** The viewpoint transform *)

Section Viewpoint.
Import Convert SceneDataset.

#[local] Arguments slice_last : simpl never.
#[local] Arguments of_rows : simpl never.
#[local] Arguments pointwise : simpl never.
#[local] Arguments concat_last : simpl never.

Lemma raw_row_length (p : Pose) : length (raw_row p) = 5%nat.
Proof. reflexivity. Qed.

(** What the conversion computes for the cameras of one record. *)
Lemma preprocess_cameras_rows (info : DatasetInfo) (fr : tensor Payload)
  (poses : list Pose) :
  0 < sequence_size info ->
  Z.of_nat (length poses) = sequence_size info ->
  _preprocess_cameras info (example_of info fr poses)
  = Ok (of_rows [1; sequence_size info] 7 (sin_cos_row <$> poses)).
Proof.
  intros Hpos Hlen. unfold _preprocess_cameras, example_of. simpl ex_cameras.
  set (n := sequence_size info) in *. unfold _NUM_RAW_CAMERA_PARAMS.
  rewrite reshape_infer.
  2: { repeat constructor; lia. }
  2: { unfold numel. simpl. replace (n * 5 * 1) with (1 * (n * (5 * 1))) by lia.
       apply Z_mod_mult. }
  replace (numel _ / dim_prod [n; 5]) with 1.
  2: { unfold numel. simpl. replace (n * 5 * 1) with (1 * (n * (5 * 1))) by lia.
       rewrite Z_div_mult; lia. }
  simpl. change (Build [1; n; 5] (raw_poses poses)) with (pose_array [1; n] poses).
  assert (Hn : length poses = Z.to_nat (dim_prod [1; n])) by (simpl; lia).
  unfold pose_array.
  rewrite !(slice_last_of_rows _ _ _ _ _ _ Hn raw_row_length).
  rewrite !pointwise_of_rows. simpl Nat.sub.
  refine (concat_last_of_rows InvalidArgumentError [1; n]
    (3%nat, fun p => take 3 (drop 0 (raw_row p)))
    [(1%nat, fun p => sin <$> take 1 (drop 3 (raw_row p)));
     (1%nat, fun p => cos <$> take 1 (drop 3 (raw_row p)));
     (1%nat, fun p => sin <$> take 1 (drop 4 (raw_row p)));
     (1%nat, fun p => cos <$> take 1 (drop 4 (raw_row p)))]
    poses Hn _).
  repeat constructor.
Qed.

(** What the loader computes for an array of raw poses. *)
Lemma transform_viewpoint_rows (s : list Z) (poses : list Pose) :
  length poses = Z.to_nat (dim_prod s) ->
  transform_viewpoint (pose_array s poses)
  = Ok (of_rows s 7 (cos_sin_row <$> poses)).
Proof.
  intros Hn. unfold transform_viewpoint, pose_array.
  rewrite split_last_of_rows. simpl.
  rewrite !(slice_last_of_rows _ _ _ _ _ _ Hn raw_row_length). simpl.
  rewrite split_last_of_rows. simpl.
  assert (Hd : forall p : Pose, length (take 3 (drop 3 (raw_row p))) = 2%nat)
    by reflexivity.
  rewrite !(slice_last_of_rows _ _ _ _ _ _ Hn Hd).
  rewrite !pointwise_of_rows. simpl Nat.sub.
  refine (concat_last_of_rows RuntimeError s
    (3%nat, fun p => take 3 (drop 0 (raw_row p)))
    [(1%nat, fun p => cos <$> take 1 (drop 0 (take 3 (drop 3 (raw_row p)))));
     (1%nat, fun p => sin <$> take 1 (drop 0 (take 3 (drop 3 (raw_row p)))));
     (1%nat, fun p => cos <$> take 1 (drop 1 (take 3 (drop 3 (raw_row p)))));
     (1%nat, fun p => sin <$> take 1 (drop 1 (take 3 (drop 3 (raw_row p)))))]
    poses Hn _).
  repeat constructor.
Qed.

(** Viewpoints that do not have five components per pose make the
    unpacking of [torch.split] fail. *)
Lemma split_last_chunks {A} (size : nat) (t : tensor A) :
  shape t <> [] ->
  split_last size t
  = Ok ((fun j => slice_last (j * size) (j * size + size) t)
          <$> seq 0 (num_chunks size (Z.to_nat (last_dim (shape t))))).
Proof. unfold split_last. destruct (shape t); [contradiction|reflexivity]. Qed.

Lemma slice_last_dim {A} (a b : nat) (t : tensor A) :
  shape (slice_last a b t) <> []
  /\ Z.to_nat (last_dim (shape (slice_last a b t)))
     = (Nat.min b (Z.to_nat (last_dim (shape t)))
        - Nat.min a (Z.to_nat (last_dim (shape t))))%nat.
Proof.
  unfold slice_last. simpl shape. rewrite last_dim_snoc, Nat2Z.id.
  split; [destruct (leading (shape t)); discriminate|reflexivity].
Qed.

Lemma num_chunks_3 (d : nat) : num_chunks 3 d = 2%nat -> (4 <= d <= 6)%nat.
Proof.
  unfold num_chunks. intros H.
  pose proof (Nat.div_mod_eq (d + 3 - 1) 3).
  pose proof (Nat.mod_upper_bound (d + 3 - 1) 3). lia.
Qed.

Lemma num_chunks_1 (d : nat) : num_chunks 1 d = Nat.max 1 d.
Proof. unfold num_chunks. rewrite Nat.div_1_r. lia. Qed.

(** Viewpoints that do not have five components per pose make the
    unpacking of [torch.split] fail. *)
Lemma transform_viewpoint_not_5 (v : tensor R) :
  shape v <> [] -> last_dim (shape v) <> 5 ->
  transform_viewpoint v = Raise ValueError.
Proof.
  intros Hrank Hd. unfold transform_viewpoint.
  rewrite (split_last_chunks 3 v Hrank).
  set (d := Z.to_nat (last_dim (shape v))).
  assert (Hd' : d <> 5%nat) by (unfold d; lia).
  destruct (decide (num_chunks 3 d = 2%nat)) as [H2|H2].
  - rewrite H2. simpl.
    destruct (slice_last_dim 3 6 v) as [Hne Hdim]. fold d in Hdim.
    rewrite (split_last_chunks 1 _ Hne), Hdim, num_chunks_1, bind_Ok.
    rewrite unpack2_length; [reflexivity|].
    rewrite length_fmap, length_seq.
    apply num_chunks_3 in H2. lia.
  - simpl. rewrite unpack2_length; [reflexivity|].
    rewrite length_fmap, length_seq. exact H2.
Qed.

Lemma concat_last_shape {A} (e : Exn) (L : list Z) (t : tensor A)
  (ts : list (tensor A)) :
  Forall (fun u => leading (shape u) = L /\ shape u <> []) (t :: ts) ->
  exists out,
    concat_last e (t :: ts) = Ok out
    /\ shape out
       = L ++ [foldr Z.add 0 ((fun u => last_dim (shape u)) <$> (t :: ts))].
Proof.
  intros Hall. unfold concat_last.
  replace (forallb _ (t :: ts)) with true.
  - eexists. split; [reflexivity|]. simpl shape.
    apply Forall_inv in Hall as [-> _]. reflexivity.
  - symmetry. apply forallb_forall. intros u Hu.
    rewrite Forall_forall in Hall.
    destruct (Hall u) as [Hu1 Hu2]; [apply list_elem_of_In; exact Hu|].
    destruct (Hall t) as [Ht1 _]; [left|].
    unfold shape_eqb. rewrite Hu1, Ht1.
    rewrite bool_decide_eq_true_2 by reflexivity.
    rewrite bool_decide_eq_false_2 by exact Hu2. reflexivity.
Qed.

Lemma slice_last_shape {A} (a b : nat) (t : tensor A) :
  leading (shape (slice_last a b t)) = leading (shape t)
  /\ shape (slice_last a b t) <> []
  /\ last_dim (shape (slice_last a b t))
     = Z.of_nat (Nat.min b (Z.to_nat (last_dim (shape t)))
                 - Nat.min a (Z.to_nat (last_dim (shape t)))).
Proof.
  unfold slice_last. simpl shape. rewrite leading_snoc, last_dim_snoc.
  repeat split. destruct (leading (shape t)); discriminate.
Qed.

Lemma pointwise_shape {A B} (f : A -> B) (t : tensor A) :
  shape (pointwise f t) = shape t.
Proof. reflexivity. Qed.

(** Five components per pose are enough for the transform to succeed,
    whatever the leading axes; the result has seven. *)
Lemma transform_viewpoint_5 (v : tensor R) :
  shape v <> [] -> last_dim (shape v) = 5 ->
  exists out,
    transform_viewpoint v = Ok out
    /\ shape out = leading (shape v) ++ [7].
Proof.
  intros Hrank Hd. unfold transform_viewpoint.
  rewrite (split_last_chunks 3 v Hrank), Hd.
  change (num_chunks 3 (Z.to_nat 5)) with 2%nat.
  cbn [seq fmap list_fmap mbind result_bind Py.unpack2 Nat.mul Nat.add].
  destruct (slice_last_shape 3 6 v) as (Hl & Hne & Hlast).
  rewrite (split_last_chunks 1 _ Hne).
  rewrite (proj2 (slice_last_dim 3 6 v)), Hd.
  change (num_chunks 1 _) with 2%nat.
  cbn [seq fmap list_fmap mbind result_bind Py.unpack2 Nat.mul Nat.add].
  destruct (concat_last_shape RuntimeError (leading (shape v))
              (slice_last 0 3 v)
              [pointwise cos (slice_last 0 1 (slice_last 3 6 v));
               pointwise sin (slice_last 0 1 (slice_last 3 6 v));
               pointwise cos (slice_last 1 2 (slice_last 3 6 v));
               pointwise sin (slice_last 1 2 (slice_last 3 6 v))])
    as (out & Hout & Hshape).
  { repeat constructor; rewrite ?pointwise_shape;
      try apply slice_last_shape;
      try (rewrite (proj1 (slice_last_shape _ _ _)); exact Hl). }
  exists out. split; [exact Hout|]. rewrite Hshape. f_equal.
  cbn [fmap list_fmap foldr]. rewrite !pointwise_shape.
  rewrite !(proj2 (proj2 (slice_last_shape _ _ _))), !Hd.
  reflexivity.
Qed.

(** C1, as the code has it: the conversion writes sine before cosine,
    for yaw and then for pitch; the loader writes cosine before sine,
    as its docstring says. *)
Theorem C1_order_of_each_call_site (info : DatasetInfo) (fr : tensor Payload)
  (s : list Z) (poses : list Pose) :
  0 < sequence_size info ->
  Z.of_nat (length poses) = sequence_size info ->
  length poses = Z.to_nat (dim_prod s) ->
  _preprocess_cameras info (example_of info fr poses)
  = Ok (of_rows [1; sequence_size info] 7 (sin_cos_row <$> poses))
  /\ transform_viewpoint (pose_array s poses)
     = Ok (of_rows s 7 (cos_sin_row <$> poses)).
Proof.
  intros Hpos Hlen Hs. split.
  - apply preprocess_cameras_rows; assumption.
  - apply transform_viewpoint_rows. exact Hs.
Qed.

Lemma C1_order_of_each_call_site_witness :
  0 < sequence_size rooms_ring_camera
  /\ Z.of_nat (length (replicate 10 origin)) = sequence_size rooms_ring_camera
  /\ _preprocess_cameras rooms_ring_camera
       (example_of rooms_ring_camera (Build [0] []) (replicate 10 origin))
     = Ok (of_rows [1; 10] 7 (sin_cos_row <$> replicate 10 origin))
  /\ transform_viewpoint (pose_array [2; 5] (replicate 10 origin))
     = Ok (of_rows [2; 5] 7 (cos_sin_row <$> replicate 10 origin)).
Proof.
  split; [reflexivity|]. split; [reflexivity|].
  apply (C1_order_of_each_call_site rooms_ring_camera (Build [0] []) [2; 5]
           (replicate 10 origin)); reflexivity.
Defined.

(** C1 as stated fails: on ten poses at the origin the loader does not
    produce the canonical order. *)
Lemma C1_counterexample :
  ~ canonical_at_both_sites rooms_ring_camera (replicate 10 origin).
Proof.
  intros [_ H]. rewrite transform_viewpoint_rows in H by reflexivity.
  injection H as H. rewrite cos_0, sin_0 in H. lra.
Qed.

End Viewpoint.

(** ** Shard names *)

Section Names.
Import Convert.

Lemma chars_of_chars (l : list ascii) : Py.chars (Py.of_chars l) = l.
Proof. apply list_ascii_of_string_of_list_ascii. Qed.

Lemma of_chars_chars (s : string) : Py.of_chars (Py.chars s) = s.
Proof. apply string_of_list_ascii_of_string. Qed.

Lemma chars_app (a b : string) : Py.chars (a +:+ b) = Py.chars a ++ Py.chars b.
Proof. induction a as [|c a IH]; simpl; [reflexivity|]. f_equal. exact IH. Qed.

Lemma rfind_lookup (c : ascii) (l : list ascii) (i : nat) :
  Py.rfind c l = Some i -> l !! i = Some c.
Proof.
  revert i. induction l as [|x l IH]; intros i; simpl; [discriminate|].
  destruct (Py.rfind c l) as [j|].
  - intros [= <-]. simpl. apply IH. reflexivity.
  - destruct (Ascii.eqb_spec x c) as [->|]; [|discriminate].
    intros [= <-]. reflexivity.
Qed.

Lemma digit_not_special (c : ascii) :
  Py.is_digit c = true ->
  Ascii.eqb c "-" = false /\ Ascii.eqb c "+" = false
  /\ Ascii.eqb c "_" = false /\ Ascii.eqb c "." = false
  /\ Py.is_space c = false.
Proof.
  unfold Py.is_digit, Py.is_space. intros H.
  assert (Hn : (48 <= nat_of_ascii c <= 57)%nat).
  { apply andb_prop in H as [H1 H2].
    apply Nat.leb_le in H1. apply Nat.leb_le in H2. lia. }
  repeat split;
    try (apply Ascii.eqb_neq; intros ->; vm_compute in Hn; lia).
  apply orb_false_intro; apply andb_false_iff; right; apply Nat.leb_gt; lia.
Qed.

(** The stem of a name that starts with digits and a dash still starts
    with them. *)
Lemma stem_digits_dash (ds rest : list ascii) :
  Forall (fun c => Py.is_digit c = true) ds ->
  exists rest',
    Py.chars (Py.stem (Py.of_chars (ds ++ "-"%char :: rest)))
    = ds ++ "-"%char :: rest'.
Proof.
  intros Hds. unfold Py.stem. rewrite chars_of_chars.
  destruct (Py.rfind "." (ds ++ "-"%char :: rest)) as [i|] eqn:Hi.
  2: { exists rest. apply chars_of_chars. }
  destruct (_ && _); [|exists rest; apply chars_of_chars].
  rewrite chars_of_chars. apply rfind_lookup in Hi.
  destruct (decide (i < length ds)%nat) as [Hlt|Hge].
  - rewrite lookup_app_l in Hi by exact Hlt.
    rewrite Forall_forall in Hds.
    apply list_elem_of_lookup_2 in Hi. apply Hds in Hi.
    apply digit_not_special in Hi as (_ & _ & _ & Hdot & _). discriminate.
  - destruct (decide (i = length ds)) as [->|Hne].
    + rewrite list_lookup_middle in Hi by reflexivity. discriminate.
    + exists (take (i - S (length ds)) rest).
      rewrite take_app_ge by lia.
      replace (i - length ds)%nat with (S (i - S (length ds))) by lia.
      reflexivity.
Qed.

Lemma before_digits_dash (ds rest : list ascii) :
  Forall (fun c => Py.is_digit c = true) ds ->
  Py.before "-" (ds ++ "-"%char :: rest) = ds.
Proof.
  induction 1 as [|c ds Hc _ IH]; simpl; [reflexivity|].
  apply digit_not_special in Hc as (-> & _). f_equal. exact IH.
Qed.

Lemma lstrip_digit (c : ascii) (l : list ascii) :
  Py.is_digit c = true -> Py.lstrip (c :: l) = c :: l.
Proof.
  intros Hc. simpl. apply digit_not_special in Hc as (_ & _ & _ & _ & ->).
  reflexivity.
Qed.

Lemma strip_digits (ds : list ascii) :
  Forall (fun c => Py.is_digit c = true) ds -> Py.strip ds = ds.
Proof.
  intros Hds. unfold Py.strip.
  destruct ds as [|c ds]; [reflexivity|].
  rewrite lstrip_digit by (inversion Hds; assumption).
  assert (Hrev : Forall (fun c => Py.is_digit c = true) (rev (c :: ds)))
    by (apply Forall_rev; exact Hds).
  destruct (rev (c :: ds)) as [|x xs] eqn:E.
  - apply (f_equal (@length _)) in E. rewrite length_rev in E. discriminate.
  - rewrite lstrip_digit by (inversion Hrev; assumption).
    rewrite <- E. apply rev_involutive.
Qed.

Lemma digits_value (ds : list ascii) (acc : Z) (after : bool) :
  Forall (fun c => Py.is_digit c = true) ds ->
  (ds <> [] \/ after = true) ->
  Py.digits acc after ds
  = Some (fold_left (fun acc c => 10 * acc + Py.digit_value c) ds acc).
Proof.
  intros Hds. revert acc after.
  induction Hds as [|c ds Hc _ IH]; intros acc after Hne; simpl.
  - destruct Hne as [Hne| ->]; [contradiction|reflexivity].
  - rewrite Hc. apply IH. right. reflexivity.
Qed.

Lemma int_digits (ds : list ascii) :
  all_digits ds -> Py.int (Py.of_chars ds) = Ok (decimal ds).
Proof.
  intros [Hne Hds]. unfold Py.int. rewrite chars_of_chars, strip_digits by exact Hds.
  destruct ds as [|c ds]; [contradiction|].
  pose proof (Forall_inv Hds) as Hc. simpl in Hc.
  apply digit_not_special in Hc as (-> & -> & _).
  rewrite digits_value; [reflexivity|exact Hds|left; discriminate].
Qed.

(** The shard index of a name that starts with digits and a dash. *)
Lemma base_name_digits (dir : string) (ds rest : list ascii) :
  all_digits ds ->
  base_name (path_join dir (Py.of_chars (ds ++ "-"%char :: rest)))
  = Ok (decimal ds).
Proof.
  intros Hds. unfold base_name. simpl name.
  destruct (stem_digits_dash ds rest (proj2 Hds)) as [rest' ->].
  rewrite before_digits_dash by exact (proj2 Hds).
  apply int_digits. exact Hds.
Qed.

Lemma shard_file_name_chars (ordinal total ext : string) :
  shard_file_name ordinal total ext
  = Py.of_chars (Py.chars ordinal
                 ++ "-"%char :: Py.chars ("of-" +:+ total +:+ "." +:+ ext)).
Proof.
  unfold shard_file_name.
  rewrite <- (of_chars_chars (ordinal +:+ _)). f_equal.
  rewrite chars_app. reflexivity.
Qed.

End Names.

(** ** One shard *)

Section Shard.
Import Convert.

(** The three steps of [convert_record], in the order the script takes
    them; nothing is written before the last one. *)
Lemma convert_record_steps (path : Path) (dataset_name save_dir : string)
  (batch_size : Z) (fs : FS) :
  convert_record path dataset_name save_dir batch_size fs
  = match build_scene_list fs path dataset_name batch_size with
    | Raise e => (Raise e, fs)
    | Ok scene_list =>
        match base_name path with
        | Raise e => (Raise e, fs)
        | Ok base =>
            match fs !! save_dir with
            | None => (Raise FileNotFoundError, fs)
            | Some d =>
                (Ok tt,
                 <[save_dir := <[save_name base := ShardFile scene_list]> d]> fs)
            end
        end
    end.
Proof.
  unfold convert_record, save. simpl.
  destruct (build_scene_list _ _ _ _); simpl; [|reflexivity].
  destruct (base_name path); simpl; [|reflexivity].
  destruct (fs !! save_dir); reflexivity.
Qed.

Lemma run_is_pair {S} (run : result unit * S) :
  run.1 = Ok tt -> run = (Ok tt, run.2).
Proof. destruct run as [r s]. simpl. intros ->. reflexivity. Qed.

Lemma read_file_insert_other (fs : FS) (dir nm : string) (file : File) (d : Dir)
  (q : Path) :
  fs !! dir = Some d ->
  q <> path_join dir nm ->
  read_file (<[dir := <[nm := file]> d]> fs) q = read_file fs q.
Proof.
  intros Hd Hq. unfold read_file.
  destruct (decide (parent q = dir)) as [E|E].
  - rewrite E, lookup_insert_eq, Hd. simpl.
    apply lookup_insert_ne. intros Heq. apply Hq.
    destruct q. simpl in *. subst. reflexivity.
  - rewrite lookup_insert_ne by congruence. reflexivity.
Qed.

Lemma build_scene_list_read (fs fs' : FS) (path : Path) (dataset_name : string)
  (batch_size : Z) :
  read_file fs' path = read_file fs path ->
  build_scene_list fs' path dataset_name batch_size
  = build_scene_list fs path dataset_name batch_size.
Proof.
  intros H. unfold build_scene_list, take_records. rewrite H. reflexivity.
Qed.

Lemma build_scene_list_processed (fs : FS) (path : Path) (dataset_name : string)
  (info : DatasetInfo) (batch_size : Z) (records : list RawRecord) :
  _DATASETS !! dataset_name = Some info ->
  read_file fs path = Some (TFRecordFile records) ->
  is_int64 batch_size = true ->
  build_scene_list fs path dataset_name batch_size
  = mapM (convert_raw_to_gzip info) (processed batch_size records).
Proof.
  intros Hinfo Hfile Hint. unfold build_scene_list, take_records, processed.
  rewrite Hinfo, Hfile, Hint. cbn [negb].
  destruct (Z.eqb_spec batch_size 0) as [->|]; reflexivity.
Qed.

Lemma is_int64_spec (count : Z) :
  is_int64 count = true <-> - 2 ^ 63 <= count < 2 ^ 63.
Proof. unfold is_int64. rewrite andb_true_iff, Z.leb_le, Z.ltb_lt. tauto. Qed.

(** A count outside the 64-bit integers is refused before the file is
    opened. *)
Lemma build_scene_list_not_int64 (fs : FS) (path : Path) (dataset_name : string)
  (batch_size : Z) :
  is_Some (_DATASETS !! dataset_name) ->
  is_int64 batch_size = false ->
  build_scene_list fs path dataset_name batch_size = Raise ValueError.
Proof.
  intros [info Hinfo] Hint. unfold build_scene_list, take_records.
  rewrite Hinfo, Hint. reflexivity.
Qed.

(** C6, as the code has it: for an input name that starts with a
    decimal ordinal and a dash, the output is written to
    [<shard_index>.pt.gz], whatever the extension of the input;
    the shard index is the number the ordinal denotes, printed without
    leading zeros. So ["042-of-900.ext"] gives ["42.pt.gz"]. *)
Theorem C6_output_is_index_pt_gz (dir ordinal total ext : string) :
  all_digits (Py.chars ordinal) ->
  let path := path_join dir (shard_file_name ordinal total ext) in
  base_name path = Ok (decimal (Py.chars ordinal))
  /\ output_name path = Ok (pretty (decimal (Py.chars ordinal)) +:+ ".pt.gz")
  /\ (forall dataset_name save_dir batch_size fs fs',
        convert_record path dataset_name save_dir batch_size fs = (Ok tt, fs') ->
        exists scene_list d,
          fs !! save_dir = Some d
          /\ fs' = <[save_dir :=
                      <[pretty (decimal (Py.chars ordinal)) +:+ ".pt.gz"
                        := ShardFile scene_list]> d]> fs)
  /\ output_name (path_join dir (shard_file_name "042" "900" "ext"))
     = Ok "42.pt.gz"%string.
Proof.
  intros Hds path.
  assert (Hbase : base_name path = Ok (decimal (Py.chars ordinal))).
  { unfold path. rewrite shard_file_name_chars. apply base_name_digits. exact Hds. }
  split; [exact Hbase|].
  split; [unfold output_name; rewrite Hbase; reflexivity|].
  split; [|vm_compute; reflexivity].
  intros dataset_name save_dir batch_size fs fs'.
  rewrite convert_record_steps, Hbase.
  destruct (build_scene_list _ _ _ _) as [scene_list|]; [|discriminate].
  destruct (fs !! save_dir) as [d|]; [|discriminate].
  intros [= <-]. exists scene_list, d. split; reflexivity.
Qed.

Lemma C6_output_is_index_pt_gz_witness :
  all_digits (Py.chars "042")
  /\ base_name (path_join "data/x/train" (shard_file_name "042" "900" "tfrecord"))
     = Ok (decimal (Py.chars "042")).
Proof.
  assert (H : all_digits (Py.chars "042")).
  { split; [discriminate|]. repeat constructor. }
  split; [exact H|].
  apply (C6_output_is_index_pt_gz "data/x/train" "042" "900" "tfrecord" H).
Defined.

(** C6 as stated fails: the output does not keep the extension of the
    input. *)
Lemma C6_counterexample :
  ~ output_keeps_extension "data/x/train" "042" "900" "ext".
Proof. unfold output_keeps_extension. vm_compute. discriminate. Qed.

(** C7: for a batch size that is a count [Dataset.take] accepts, not
    negative and below [2^63], the scene list is built from the first
    [batch_size] records of the file, in file order, and from nothing
    else; when these convert, the call succeeds whatever follows them,
    and the list it writes has [min(batch_size, available)] entries. *)
Theorem C7_at_most_batch_size_records (fs : FS) (path : Path)
  (dataset_name save_dir : string) (info : DatasetInfo) (batch_size : Z)
  (records : list RawRecord) (d : Dir) (base : Z) :
  _DATASETS !! dataset_name = Some info ->
  read_file fs path = Some (TFRecordFile records) ->
  fs !! save_dir = Some d ->
  base_name path = Ok base ->
  0 <= batch_size < 2 ^ 63 ->
  build_scene_list fs path dataset_name batch_size
  = mapM (convert_raw_to_gzip info) (take (Z.to_nat batch_size) records)
  /\ (Forall (fun r => is_Ok (convert_raw_to_gzip info r) = true)
             (take (Z.to_nat batch_size) records) ->
      exists scene_list,
        convert_record path dataset_name save_dir batch_size fs
        = (Ok tt, <[save_dir := <[save_name base := ShardFile scene_list]> d]> fs)
        /\ Forall2 (fun r sc => convert_raw_to_gzip info r = Ok sc)
                   (take (Z.to_nat batch_size) records) scene_list
        /\ Z.of_nat (length scene_list)
           = Z.min batch_size (Z.of_nat (length records))).
Proof.
  intros Hinfo Hfile Hdir Hbase Hbs.
  assert (Hbuild : build_scene_list fs path dataset_name batch_size
                   = mapM (convert_raw_to_gzip info)
                          (take (Z.to_nat batch_size) records)).
  { rewrite (build_scene_list_processed _ _ _ info _ records Hinfo Hfile)
      by (apply is_int64_spec; lia).
    unfold processed. destruct (Z.ltb_spec batch_size 0); [lia|reflexivity]. }
  split; [exact Hbuild|]. intros Hok.
  destruct (mapM_all_Ok _ _ Hok) as [scene_list Hlist].
  exists scene_list. rewrite convert_record_steps, Hbuild, Hlist, Hbase, Hdir.
  split; [reflexivity|]. split; [apply mapM_Ok_Forall2; exact Hlist|].
  apply mapM_Ok_length in Hlist. rewrite Hlist, length_take. lia.
Qed.

End Shard.

(** ** One record *)

Section Record.
Import Convert.

Ltac raise_inv :=
  repeat match goal with
    | H : Raise _ = Raise _ |- _ => injection H as <-
    | H : Ok _ = Raise _ |- _ => discriminate H
    | H : context [if ?b then _ else _] |- _ => destruct b
    | H : context [match ?x with _ => _ end] |- _ => destruct x
    end; try reflexivity.

Lemma stack_Raise {A} (e e' : Exn) (ts : list (tensor A)) :
  stack e ts = Raise e' -> e' = e.
Proof. unfold stack. intros H. raise_inv. Qed.

(** A record whose fields do not match the declared shapes is refused. *)
Lemma convert_raw_to_gzip_malformed (info : DatasetInfo) (raw : RawRecord) :
  fields_match info raw = false ->
  convert_raw_to_gzip info raw = Raise InvalidArgumentError.
Proof.
  unfold fields_match, convert_raw_to_gzip, parse_single_example,
    parse_bytes, parse_floats, _NUM_RAW_CAMERA_PARAMS.
  destruct raw as [fm|]; [|reflexivity].
  destruct (fm !! "frames"%string) as [[l|l|l]|]; try reflexivity.
  destruct (fm !! "cameras"%string) as [[k|k|k]|];
    try (destruct (_ =? _); reflexivity).
  destruct (_ =? sequence_size info); [|reflexivity].
  destruct (_ =? sequence_size info * 5); [discriminate|reflexivity].
Qed.

Lemma datasets_positive (dataset_name : string) (info : DatasetInfo) :
  _DATASETS !! dataset_name = Some info ->
  0 < sequence_size info /\ 0 < frame_size info.
Proof.
  intros H. apply elem_of_list_to_map_2 in H.
  repeat (apply elem_of_cons in H as [H|H];
          [injection H as -> ->; simpl; lia|]).
  apply elem_of_nil in H. contradiction.
Qed.

Lemma convert_frames_shapes (size : Z) (imgs : list Payload) :
  forallb (is_frame size) imgs = true ->
  exists ts, mapM _convert_frame_data imgs = Ok ts
             /\ length ts = length imgs
             /\ Forall (fun u => shape u = [size; size; 3]) ts.
Proof.
  induction imgs as [|p imgs IH]; simpl.
  - intros _. exists []. repeat split. constructor.
  - intros H. apply andb_prop in H as [Hp Hrest].
    destruct (IH Hrest) as (ts & -> & Hlen & Hall).
    destruct p as [h w c px|]; [|discriminate]. simpl in Hp.
    apply andb_prop in Hp as [Hp _]. apply andb_prop in Hp as [Hp Hc].
    apply andb_prop in Hp as [Hh Hw].
    apply Z.eqb_eq in Hh, Hw, Hc. subst h w c. simpl.
    eexists. split; [reflexivity|]. split; [simpl; congruence|].
    constructor; [reflexivity|exact Hall].
Qed.

Lemma reshape_same_size {A} (t : tensor A) (dims : list Z) :
  Forall (fun d => 0 < d) dims -> numel t = dim_prod dims ->
  reshape t (-1 :: dims) = Ok (Build (1 :: dims) (data t)).
Proof.
  intros Hpos Hn. pose proof (dim_prod_pos _ Hpos).
  rewrite reshape_infer; [|exact Hpos|rewrite Hn; apply Z_mod_same_full].
  rewrite Hn, Z_div_same_full by lia. reflexivity.
Qed.

Lemma map_fn_stack {A B} (fn : A -> result (tensor B)) (elems : tensor A)
  (ts : list (tensor B)) :
  mapM fn (data elems) = Ok ts -> ts <> [] ->
  map_fn fn elems = stack ValueError ts.
Proof.
  intros H Hne. unfold map_fn. rewrite H. cbn [mbind result_bind].
  destruct ts; [contradiction|reflexivity].
Qed.

(** The frames of a record with [n] payloads of the frame size, for a
    data set whose frames need no resizing. *)
Lemma preprocess_frames_shape (info : DatasetInfo) (imgs : list Payload)
  (cams : tensor R) :
  0 < sequence_size info -> frame_size info = 64 ->
  Z.of_nat (length imgs) = sequence_size info ->
  forallb (is_frame (frame_size info)) imgs = true ->
  exists t,
    _preprocess_frames info
      {| ex_frames := Build [sequence_size info] imgs; ex_cameras := cams |}
    = Ok t
    /\ shape t = [1; sequence_size info; 64; 64; 3].
Proof.
  intros Hn Hsize Hlen Himgs. unfold _preprocess_frames, _NUM_CHANNELS.
  cbn [ex_frames app]. rewrite Hsize in *.
  set (n := sequence_size info) in *.
  rewrite (reshape_infer _ []); [|constructor|apply Z.mod_1_r].
  cbn [mbind result_bind].
  destruct (convert_frames_shapes 64 imgs Himgs) as (ts & Hmap & Hts & Hshape).
  rewrite (map_fn_stack _ _ ts); [|exact Hmap|intros ->; simpl in Hts; lia].
  rewrite (stack_shape _ ts [64; 64; 3]);
    [|intros ->; simpl in Hts; lia|exact Hshape].
  cbn [mbind result_bind].
  rewrite (reshape_same_size _ [n; 64; 64; 3]);
    [|repeat constructor; lia|unfold numel; simpl; rewrite Hts; lia].
  cbn [mbind result_bind Z.eqb Pos.eqb negb]. eexists. split; reflexivity.
Qed.

(** Every list of [5 * n] numbers is an array of [n] raw poses. *)
Lemma raw_poses_exists (n : nat) (cams : list R) :
  length cams = (n * 5)%nat ->
  exists poses, length poses = n /\ raw_poses poses = cams.
Proof.
  revert cams. induction n as [|n IH]; intros cams Hlen.
  - exists []. destruct cams; [split; reflexivity|discriminate].
  - destruct cams as [|x [|y [|z [|a [|b cams]]]]]; try discriminate.
    destruct (IH cams) as (poses & Hp & Hraw); [simpl in Hlen; lia|].
    exists ({| pos_x := x; pos_y := y; pos_z := z; yaw := a; pitch := b |}
              :: poses).
    split; [simpl; congruence|]. rewrite <- Hraw. reflexivity.
Qed.

(** What the conversion makes of a well-formed record of a data set
    whose frames need no resizing: both arrays keep a leading axis of
    length one. *)
Lemma convert_raw_to_gzip_well_formed (info : DatasetInfo) (raw : RawRecord) :
  0 < sequence_size info -> frame_size info = 64 ->
  well_formed info raw = true ->
  exists sc,
    convert_raw_to_gzip info raw = Ok sc
    /\ shape (frames sc) = [1; sequence_size info; 64; 64; 3]
    /\ shape (cameras sc) = [1; sequence_size info; 7].
Proof.
  intros Hn Hsize Hwf. unfold well_formed in Hwf.
  apply andb_prop in Hwf as [Hfields Himgs].
  unfold fields_match in Hfields. unfold payloads in Himgs.
  destruct raw as [fm|]; [|discriminate].
  unfold convert_raw_to_gzip, parse_single_example, parse_bytes, parse_floats.
  destruct (fm !! "frames"%string) as [[imgs|?|?]|]; try discriminate.
  destruct (fm !! "cameras"%string) as [[?|cams|?]|]; try discriminate.
  apply andb_prop in Hfields as [Hi Hc].
  unfold _NUM_RAW_CAMERA_PARAMS. rewrite Hi, Hc. cbn [mbind result_bind mret result_ret].
  apply Z.eqb_eq in Hi, Hc.
  destruct (preprocess_frames_shape info imgs
              (Build [sequence_size info * 5] cams) Hn Hsize Hi Himgs)
    as (fr & -> & Hfr).
  cbn [mbind result_bind].
  destruct (raw_poses_exists (Z.to_nat (sequence_size info)) cams)
    as (poses & Hp & <-); [lia|].
  pose proof (preprocess_cameras_rows info (Build [sequence_size info] imgs)
                poses Hn) as Hcam.
  unfold example_of, _NUM_RAW_CAMERA_PARAMS in Hcam. rewrite Hcam by lia.
  cbn [mbind result_bind]. eexists. split; [reflexivity|]. split; [exact Hfr|].
  reflexivity.
Qed.

(** C8, as the code has it: when one of the processed records has
    fields that do not match the declared shapes, the conversion of the
    shard raises and the file system is as it was: no output file is
    created, none is changed. The exception is the one of the first
    processed record that does not convert; it is the decoding error
    when that record is one whose fields do not match. *)
Theorem C8_malformed_record_aborts (fs : FS) (path : Path)
  (dataset_name save_dir : string) (info : DatasetInfo) (batch_size : Z)
  (records : list RawRecord) :
  _DATASETS !! dataset_name = Some info ->
  read_file fs path = Some (TFRecordFile records) ->
  is_int64 batch_size = true ->
  Exists (fun r => fields_match info r = false) (processed batch_size records) ->
  exists before r after e,
    processed batch_size records = before ++ r :: after
    /\ Forall (fun r' => is_Ok (convert_raw_to_gzip info r') = true) before
    /\ convert_raw_to_gzip info r = Raise e
    /\ convert_record path dataset_name save_dir batch_size fs = (Raise e, fs)
    /\ (fields_match info r = false -> e = InvalidArgumentError).
Proof.
  intros Hinfo Hfile Hint Hbad.
  destruct (mapM_first_Raise (convert_raw_to_gzip info)
              (processed batch_size records))
    as (before & r & after & e & Hsplit & Hbefore & Hr & Hall).
  { eapply Exists_impl; [exact Hbad|]. intros r Hr. simpl in Hr.
    rewrite (convert_raw_to_gzip_malformed info r Hr). reflexivity. }
  exists before, r, after, e.
  split; [exact Hsplit|]. split; [exact Hbefore|]. split; [exact Hr|].
  split.
  - rewrite convert_record_steps.
    rewrite (build_scene_list_processed _ _ _ info _ records Hinfo Hfile Hint).
    rewrite Hall. reflexivity.
  - intros Hm. rewrite (convert_raw_to_gzip_malformed info r Hm) in Hr.
    injection Hr as <-. reflexivity.
Qed.

Lemma C8_malformed_record_aborts_witness :
  _DATASETS !! "rooms_ring_camera"%string = Some rooms_ring_camera
  /\ read_file excess_fs (path_join "in" "1-of-1.tfrecord")
     = Some (TFRecordFile [black_record; Unparsable])
  /\ is_int64 16 = true
  /\ exists before r after e,
       processed 16 [black_record; Unparsable] = before ++ r :: after
       /\ Forall (fun r' => is_Ok (convert_raw_to_gzip rooms_ring_camera r')
                            = true) before
       /\ convert_raw_to_gzip rooms_ring_camera r = Raise e
       /\ convert_record (path_join "in" "1-of-1.tfrecord") "rooms_ring_camera"
                         "out" 16 excess_fs
          = (Raise e, excess_fs)
       /\ (fields_match rooms_ring_camera r = false
           -> e = InvalidArgumentError).
Proof.
  assert (H1 : _DATASETS !! "rooms_ring_camera"%string = Some rooms_ring_camera)
    by (vm_compute; reflexivity).
  assert (H2 : read_file excess_fs (path_join "in" "1-of-1.tfrecord")
               = Some (TFRecordFile [black_record; Unparsable]))
    by (vm_compute; reflexivity).
  assert (H3 : is_int64 16 = true) by reflexivity.
  split; [exact H1|]. split; [exact H2|]. split; [exact H3|].
  apply (C8_malformed_record_aborts excess_fs (path_join "in" "1-of-1.tfrecord")
           "rooms_ring_camera" "out" rooms_ring_camera 16
           [black_record; Unparsable] H1 H2 H3).
  apply Exists_cons_tl, Exists_cons_hd. reflexivity.
Defined.

(** C8 as stated fails: the second record of the shard does not parse,
    and the exception raised is not the decoding error but the
    [ValueError] of the first record, whose frames have two sizes. *)
Lemma C8_counterexample :
  ~ raises_decoding_error rooms_ring_camera two_sizes_fs
      (path_join "in" "1-of-1.tfrecord") "rooms_ring_camera" "out" 16.
Proof.
  intros H. specialize (H [two_sizes_record; Unparsable]).
  assert (Hrun : (convert_record (path_join "in" "1-of-1.tfrecord")
                    "rooms_ring_camera" "out" 16 two_sizes_fs).1
                 = Raise ValueError) by (vm_compute; reflexivity).
  rewrite H in Hrun; [discriminate|vm_compute; reflexivity|].
  apply Exists_cons_tl, Exists_cons_hd. reflexivity.
Qed.

Lemma C7_at_most_batch_size_records_witness :
  _DATASETS !! "rooms_ring_camera"%string = Some rooms_ring_camera
  /\ 0 <= 1 < 2 ^ 63
  /\ exists scene_list,
       convert_record (path_join "in" "1-of-1.tfrecord") "rooms_ring_camera"
                      "out" 1 excess_fs
       = (Ok tt,
          <["out"%string := <[save_name 1 := ShardFile scene_list]> ∅]> excess_fs)
       /\ Z.of_nat (length scene_list) = Z.min 1 2.
Proof.
  assert (H1 : _DATASETS !! "rooms_ring_camera"%string = Some rooms_ring_camera)
    by (vm_compute; reflexivity).
  assert (H2 : read_file excess_fs (path_join "in" "1-of-1.tfrecord")
               = Some (TFRecordFile [black_record; Unparsable]))
    by (vm_compute; reflexivity).
  assert (H3 : excess_fs !! "out"%string = Some ∅) by (vm_compute; reflexivity).
  assert (H4 : base_name (path_join "in" "1-of-1.tfrecord") = Ok 1)
    by (vm_compute; reflexivity).
  assert (H5 : 0 <= 1 < 2 ^ 63) by lia.
  split; [exact H1|]. split; [exact H5|].
  destruct (C7_at_most_batch_size_records excess_fs
              (path_join "in" "1-of-1.tfrecord") "rooms_ring_camera" "out"
              rooms_ring_camera 1 [black_record; Unparsable] ∅ 1
              H1 H2 H3 H4 H5) as [_ Hconv].
  destruct Hconv as (scene_list & Hrun & _ & Hlen).
  - constructor; [vm_compute; reflexivity|constructor].
  - exists scene_list. split; [exact Hrun|exact Hlen].
Defined.

End Record.

(** ** The scene loader *)

Section Loader.
Import Convert SceneDataset.

(** Scenes whose frames do not have the four axes
    [(seqlen, height, width, channels)] cannot be loaded: the stack has
    not the five axes [permute] asks for. *)
Lemma getitem_frames_rank (self : t) (index : Z) (fs : FS)
  (scenes : list Scene) :
  load self index fs = Ok scenes ->
  Forall (fun sc => rank (frames sc) <> 4%nat) scenes ->
  __getitem__ self index fs = Raise RuntimeError.
Proof.
  intros Hload Hrank. unfold __getitem__. rewrite Hload.
  cbn [mbind result_bind].
  destruct (stack RuntimeError (frames <$> scenes)) as [images|e] eqn:Hf;
    cbn [mbind result_bind];
    [|apply stack_Raise in Hf; subst e; reflexivity].
  destruct (stack RuntimeError (cameras <$> scenes)) as [viewpoints|e] eqn:Hc;
    cbn [mbind result_bind];
    [|apply stack_Raise in Hc; subst e; reflexivity].
  rewrite permute_rank; [reflexivity|].
  apply stack_Ok_shape in Hf as (u & Hu & Hshape).
  unfold rank. rewrite Hshape. simpl.
  destruct scenes as [|sc scenes]; [discriminate|].
  injection Hu as <-. apply Forall_inv in Hrank. unfold rank in Hrank. lia.
Qed.

Lemma load_after_save (self : t) (index : Z) (fs : FS) (d : Dir)
  (scenes : list Scene) :
  load self index
    (<[root_dir self := <[save_name index := ShardFile scenes]> d]> fs)
  = Ok scenes.
Proof.
  unfold load, read_file, filename, save_name. simpl.
  rewrite lookup_insert_eq. simpl. rewrite lookup_insert_eq. reflexivity.
Qed.

(** Converting a shard of well-formed records, of a data set whose
    frames need no resizing, and loading the result raises. *)
Lemma round_trip_raises (fs : FS) (path : Path) (dataset_name save_dir : string)
  (info : DatasetInfo) (batch_size : Z) (records : list RawRecord) (d : Dir)
  (base : Z) :
  _DATASETS !! dataset_name = Some info ->
  read_file fs path = Some (TFRecordFile records) ->
  fs !! save_dir = Some d ->
  base_name path = Ok base ->
  frame_size info = 64 ->
  is_int64 batch_size = true ->
  Forall (fun r => well_formed info r = true) (processed batch_size records) ->
  exists fs',
    convert_record path dataset_name save_dir batch_size fs = (Ok tt, fs')
    /\ __getitem__ {| root_dir := save_dir |} base fs' = Raise RuntimeError.
Proof.
  intros Hinfo Hfile Hdir Hbase Hsize Hint Hwf.
  destruct (datasets_positive _ _ Hinfo) as [Hn _].
  rewrite convert_record_steps.
  rewrite (build_scene_list_processed _ _ _ info _ records Hinfo Hfile Hint).
  destruct (mapM_all_Ok (convert_raw_to_gzip info) (processed batch_size records))
    as [scenes Hscenes].
  { eapply Forall_impl; [exact Hwf|]. intros r Hr.
    destruct (convert_raw_to_gzip_well_formed info r Hn Hsize Hr) as (sc & -> & _).
    reflexivity. }
  rewrite Hscenes, Hbase, Hdir. eexists. split; [reflexivity|].
  apply (getitem_frames_rank _ _ _ scenes).
  - apply (load_after_save {| root_dir := save_dir |}).
  - apply mapM_Ok_Forall2 in Hscenes. clear -Hscenes Hwf Hn Hsize.
    induction Hscenes as [|r sc rs scs Hr _ IH]; [constructor|].
    inversion Hwf as [|? ? Hwr Hws]; subst. constructor; [|apply IH; exact Hws].
    destruct (convert_raw_to_gzip_well_formed info r Hn Hsize Hwr)
      as (sc' & Hsc' & Hshape & _).
    rewrite Hr in Hsc'. injection Hsc' as <-.
    unfold rank. rewrite Hshape. discriminate.
Qed.

(** C3, evaluated: the shard made from one well-formed record of
    [rooms_ring_camera] is written as [1.pt.gz], and loading it raises
    instead of returning one record. *)
Theorem C3_round_trip_raises :
  exists fs',
    convert_record (path_join "in" "1-of-1.tfrecord") "rooms_ring_camera"
                   "out" 16 one_shard_fs = (Ok tt, fs')
    /\ __getitem__ {| root_dir := "out" |} 1 fs' = Raise RuntimeError.
Proof.
  apply (round_trip_raises one_shard_fs (path_join "in" "1-of-1.tfrecord")
           "rooms_ring_camera" "out" rooms_ring_camera 16 [black_record] ∅ 1).
  - vm_compute. reflexivity.
  - vm_compute. reflexivity.
  - vm_compute. reflexivity.
  - vm_compute. reflexivity.
  - reflexivity.
  - reflexivity.
  - repeat constructor.
Qed.

(** C4, evaluated: the scene made from a well-formed record of
    [rooms_ring_camera] holds frames of shape (1, 10, 64, 64, 3) and
    cameras of shape (1, 10, 7); the leading axis is not in the
    claim. *)
Theorem C4_scene_has_leading_axis :
  exists sc,
    convert_raw_to_gzip rooms_ring_camera black_record = Ok sc
    /\ shape (frames sc) = [1; 10; 64; 64; 3]
    /\ shape (cameras sc) = [1; 10; 7].
Proof.
  apply (convert_raw_to_gzip_well_formed rooms_ring_camera black_record);
    vm_compute; reflexivity.
Qed.

(** The viewpoints [__getitem__] returns are the transform of the stack
    of the stored ones. *)
Lemma getitem_Ok_inv (self : t) (index : Z) (fs : FS) (scenes : list Scene)
  (images v : tensor R) :
  load self index fs = Ok scenes ->
  __getitem__ self index fs = Ok (images, v) ->
  exists stored,
    stack RuntimeError (cameras <$> scenes) = Ok stored
    /\ (stack RuntimeError (frames <$> scenes)
          ≫= fun im => permute im [0; 1; 4; 2; 3]%nat) = Ok images
    /\ transform_viewpoint stored = Ok v.
Proof.
  intros Hload. unfold __getitem__. rewrite Hload. cbn [mbind result_bind].
  destruct (stack RuntimeError (frames <$> scenes)) as [im|e];
    cbn [mbind result_bind]; [|discriminate].
  destruct (stack RuntimeError (cameras <$> scenes)) as [stored|e];
    cbn [mbind result_bind]; [|discriminate].
  destruct (permute im _) as [im'|e]; cbn [mbind result_bind]; [|discriminate].
  destruct (transform_viewpoint stored) as [v'|e] eqn:Hv;
    cbn [mbind result_bind mret result_ret]; [|discriminate].
  intros [= <- <-]. exists stored. repeat split; first [reflexivity|exact Hv].
Qed.

(** What [__getitem__] does once the frames are stacked and permuted. *)
Lemma getitem_transform (self : t) (index : Z) (fs : FS) (scenes : list Scene)
  (images stored : tensor R) :
  load self index fs = Ok scenes ->
  stack RuntimeError (cameras <$> scenes) = Ok stored ->
  (stack RuntimeError (frames <$> scenes)
     ≫= fun im => permute im [0; 1; 4; 2; 3]%nat) = Ok images ->
  __getitem__ self index fs
  = (fun v => (images, v)) <$> transform_viewpoint stored.
Proof.
  intros Hload Hstored Himages. unfold __getitem__. rewrite Hload.
  cbn [mbind result_bind].
  destruct (stack RuntimeError (frames <$> scenes)) as [im|e];
    [|discriminate].
  cbn [mbind result_bind] in *. rewrite Hstored, Himages.
  cbn [mbind result_bind].
  destruct (transform_viewpoint stored); reflexivity.
Qed.

(** The exceptions of [__getitem__] on a shard that was read. *)
Lemma getitem_Raise (self : t) (index : Z) (fs : FS) (scenes : list Scene)
  (stored : tensor R) (e : Exn) :
  load self index fs = Ok scenes ->
  stack RuntimeError (cameras <$> scenes) = Ok stored ->
  transform_viewpoint stored = Raise ValueError ->
  __getitem__ self index fs = Raise e ->
  (e = ValueError \/ e = RuntimeError)
  /\ (is_Ok (stack RuntimeError (frames <$> scenes)
               ≫= fun im => permute im [0; 1; 4; 2; 3]%nat) = true ->
      e = ValueError).
Proof.
  intros Hload Hstored Hv. unfold __getitem__. rewrite Hload.
  cbn [mbind result_bind].
  destruct (stack RuntimeError (frames <$> scenes)) as [im|e1] eqn:Hf;
    cbn [mbind result_bind].
  - rewrite Hstored. cbn [mbind result_bind].
    destruct (permute im _) as [im'|e2] eqn:Hp; cbn [mbind result_bind].
    + rewrite Hv. cbn [mbind result_bind]. intros [= <-].
      split; [left; reflexivity|reflexivity].
    + intros [= <-]. split; [|discriminate]. right.
      unfold permute in Hp.
      repeat match type of Hp with
        | context [if ?b then _ else _] => destruct b
        | context [match ?x with _ => _ end] => destruct x
        end; congruence.
  - intros [= <-]. apply stack_Raise in Hf. subst e1.
    split; [right; reflexivity|discriminate].
Qed.

(** C2, as the code has it: the loader passes the stack of the stored
    viewpoints through [transform_viewpoint]. Whatever it returns has
    been transformed: the stored viewpoints then have five components
    per pose and the returned ones seven, cosine first. A shard whose
    stored viewpoints already have seven components is never returned:
    the load raises, [ValueError] in [transform_viewpoint] when the
    frames stack and permute, [RuntimeError] before that when they do
    not. *)
Theorem C2_loader_transforms_on_load (self : t) (index : Z) (fs : FS)
  (scenes : list Scene) :
  load self index fs = Ok scenes ->
  (forall images v,
     __getitem__ self index fs = Ok (images, v) ->
     exists stored,
       stack RuntimeError (cameras <$> scenes) = Ok stored
       /\ transform_viewpoint stored = Ok v
       /\ last_dim (shape stored) = 5
       /\ shape v = leading (shape stored) ++ [7]
       /\ v <> stored)
  /\ (forall stored images s poses,
        stack RuntimeError (cameras <$> scenes) = Ok stored ->
        (stack RuntimeError (frames <$> scenes)
           ≫= fun im => permute im [0; 1; 4; 2; 3]%nat) = Ok images ->
        stored = pose_array s poses ->
        length poses = Z.to_nat (dim_prod s) ->
        __getitem__ self index fs
        = Ok (images, of_rows s 7 (cos_sin_row <$> poses)))
  /\ (forall stored,
        stack RuntimeError (cameras <$> scenes) = Ok stored ->
        last_dim (shape stored) = 7 ->
        exists e,
          __getitem__ self index fs = Raise e
          /\ (e = ValueError \/ e = RuntimeError)
          /\ (is_Ok (stack RuntimeError (frames <$> scenes)
                       ≫= fun im => permute im [0; 1; 4; 2; 3]%nat) = true ->
              e = ValueError)).
Proof.
  intros Hload.
  assert (Hrank : forall stored,
             stack RuntimeError (cameras <$> scenes) = Ok stored ->
             shape stored <> []).
  { intros stored Hstored.
    apply stack_Ok_shape in Hstored as (u & _ & ->). discriminate. }
  split; [|split].
  - intros images v Hget.
    destruct (getitem_Ok_inv _ _ _ _ _ _ Hload Hget)
      as (stored & Hstored & _ & Hv).
    exists stored. split; [exact Hstored|]. split; [exact Hv|].
    pose proof (Hrank _ Hstored) as Hne.
    destruct (decide (last_dim (shape stored) = 5)) as [E|E].
    + destruct (transform_viewpoint_5 stored Hne E) as (out & Hout & Hshape).
      rewrite Hv in Hout. injection Hout as <-.
      split; [exact E|]. split; [exact Hshape|].
      intros ->. apply (f_equal last_dim) in Hshape.
      rewrite last_dim_snoc in Hshape. lia.
    + rewrite (transform_viewpoint_not_5 stored Hne E) in Hv. discriminate.
  - intros stored images s poses Hstored Himages -> Hlen.
    rewrite (getitem_transform _ _ _ _ _ _ Hload Hstored Himages).
    rewrite transform_viewpoint_rows by exact Hlen. reflexivity.
  - intros stored Hstored H7.
    assert (Hv : transform_viewpoint stored = Raise ValueError)
      by (apply transform_viewpoint_not_5; [exact (Hrank _ Hstored)|lia]).
    destruct (__getitem__ self index fs) as [[images v]|e] eqn:Hget.
    + destruct (getitem_Ok_inv _ _ _ _ _ _ Hload Hget)
        as (stored' & Hstored' & _ & Hv').
      rewrite Hstored in Hstored'. injection Hstored' as <-.
      rewrite Hv in Hv'. discriminate.
    + exists e. split; [reflexivity|].
      exact (getitem_Raise _ _ _ _ _ _ Hload Hstored Hv Hget).
Qed.

Lemma C2_loader_transforms_on_load_witness :
  load {| root_dir := "out" |} 1 raw_fs = Ok [raw_scene]
  /\ __getitem__ {| root_dir := "out" |} 1 raw_fs
     = Ok (Build [1; 1; 3; 1; 1] [0; 0; 0]%R,
           of_rows [1; 1] 7 [cos_sin_row origin]).
Proof.
  assert (Hload : load {| root_dir := "out" |} 1 raw_fs = Ok [raw_scene])
    by (vm_compute; reflexivity).
  split; [exact Hload|].
  apply (proj1 (proj2 (C2_loader_transforms_on_load {| root_dir := "out" |} 1
                         raw_fs [raw_scene] Hload))
           (pose_array [1; 1] [origin]) (Build [1; 1; 3; 1; 1] [0; 0; 0]%R)
           [1; 1] [origin]);
    [vm_compute; reflexivity..|reflexivity|reflexivity].
Defined.

(** C2 as stated fails: a shard whose viewpoints are stored in the
    final form of seven components is not returned as stored, the load
    raises. *)
Lemma C2_counterexample :
  ~ returns_stored_viewpoints {| root_dir := "out" |} 1 final_form_fs.
Proof.
  intros H. destruct (H [final_form_scene]) as (images & viewpoints & Hget & _).
  - vm_compute. reflexivity.
  - assert (Hraise : __getitem__ {| root_dir := "out" |} 1 final_form_fs
                     = Raise ValueError) by (vm_compute; reflexivity).
    rewrite Hraise in Hget. discriminate.
Qed.

End Loader.

(** ** The driver *)

Section Driver.
Import Convert SceneDataset.

Lemma tf_dir_ne_torch_dir (args : Args) : tf_dir args <> torch_dir args.
Proof.
  unfold tf_dir, torch_dir. intros H.
  apply (f_equal Py.chars) in H. rewrite !chars_app in H.
  do 2 apply app_inv_head in H. discriminate.
Qed.

Lemma lookup_mkdir_ne (dir dir' : string) (fs : FS) :
  dir <> dir' -> mkdir dir fs !! dir' = fs !! dir'.
Proof.
  intros Hne. unfold mkdir. destruct (fs !! dir); [reflexivity|].
  apply lookup_insert_ne. exact Hne.
Qed.

Lemma mkdir_lookup (dir : string) (fs : FS) : is_Some (mkdir dir fs !! dir).
Proof.
  unfold mkdir. destruct (fs !! dir) eqn:E.
  - rewrite E. eauto.
  - rewrite lookup_insert_eq. eauto.
Qed.

#[local] Instance le_total : Total Py.le.
Proof. intros a b. apply String.leb_total. Qed.




(** *** The pool *)

Lemma chunks_concat {A} (fuel size : nat) (l : list A) :
  (0 < size)%nat -> (length l <= fuel)%nat ->
  concat (chunks fuel size l) = l.
Proof.
  intros Hsize. revert l.
  induction fuel as [|fuel IH]; intros l Hlen; simpl.
  - destruct l; [reflexivity|simpl in Hlen; lia].
  - destruct l as [|x l]; [reflexivity|]. simpl concat.
    rewrite IH; [apply take_drop|].
    rewrite length_drop. simpl in *. lia.
Qed.

Lemma chunksize_pos (n num_proc : nat) : (0 < n)%nat -> (0 < chunksize n num_proc)%nat.
Proof.
  intros Hn. unfold chunksize.
  destruct (Nat.eqb_spec (n mod (num_proc * 4)) 0) as [E|]; [|lia].
  destruct (num_proc * 4)%nat as [|k] eqn:Ek; [simpl in E; lia|].
  pose proof (Nat.div_mod_eq n (S k)). rewrite E in *.
  destruct (n / S k)%nat; lia.
Qed.

Section Runs.
Variable f : Path -> FS -> result unit * FS.

Lemma runs_app (ps qs : list Path) (fs fs1 fs2 : FS) :
  runs f ps fs fs1 -> runs f qs fs1 fs2 -> runs f (ps ++ qs) fs fs2.
Proof.
  induction 1 as [|p ps fs fs' fs1 Hp _ IH]; intros Hq; simpl; [exact Hq|].
  econstructor; [exact Hp|]. apply IH. exact Hq.
Qed.

Lemma run_chunk_Ok (jobs : list Path) (fs fs' : FS) (u : unit) :
  run_chunk f jobs fs = (Ok u, fs') -> runs f jobs fs fs'.
Proof.
  destruct u. revert fs. induction jobs as [|p jobs IH]; intros fs; simpl.
  - intros [= <-]. constructor.
  - destruct (f p fs) as [[[]|e] fs1] eqn:Hp; [|discriminate].
    intros H. econstructor; [exact Hp|]. apply IH. exact H.
Qed.

Lemma run_chunks_Ok (batches : list (list Path)) (fs fs' : FS) (u : unit) :
  run_chunks f batches fs = (Ok u, fs') -> runs f (concat batches) fs fs'.
Proof.
  destruct u. revert fs. induction batches as [|c batches IH]; intros fs; simpl.
  - intros [= <-]. constructor.
  - destruct (run_chunk f c fs) as [r fs1] eqn:Hc.
    destruct (run_chunks f batches fs1) as [r' fs2] eqn:Hrest.
    destruct r as [[]|e]; [|discriminate].
    intros [= -> <-]. eapply runs_app.
    + eapply run_chunk_Ok. exact Hc.
    + eapply IH. exact Hrest.
Qed.

(** A run of the pool that raises nothing has run every job. *)
Lemma pool_map_Ok (num_proc : nat) (jobs : list Path) (fs fs' : FS) :
  pool_map num_proc f jobs fs = (Ok tt, fs') -> runs f jobs fs fs'.
Proof.
  unfold pool_map. intros H. apply run_chunks_Ok in H.
  destruct jobs as [|p jobs]; [exact H|].
  rewrite chunks_concat in H; [exact H| |reflexivity].
  apply chunksize_pos. simpl. lia.
Qed.

End Runs.

(** *** The jobs the pool calls *)

Section Invoked.
Variable f : Path -> FS -> result unit * FS.






End Invoked.




(** *** Jobs whose outcome does not depend on the other jobs *)

Section Outcomes.
Variable f : Path -> FS -> result unit * FS.
Variable out : Path -> result unit.
Variable inv : FS -> Prop.
Variable ok : Path -> Prop.
Hypothesis f_out :
  forall p fs, ok p -> inv fs -> (f p fs).1 = out p /\ inv (f p fs).2.







End Outcomes.





#[local] Instance save_name_inj : Inj (=) (=) save_name.
Proof.
  intros a b H. unfold save_name in H.
  apply (f_equal Py.chars) in H. rewrite !chars_app in H.
  apply app_inv_tail in H. apply (f_equal Py.of_chars) in H.
  rewrite !of_chars_chars in H. apply (inj pretty). exact H.
Qed.

(** The names in the output directory after the jobs have run. *)
Lemma runs_convert_dom (dataset_name save_dir : string) (batch_size : Z)
  (jobs : list Path) (fs fs' : FS) :
  runs (fun p => convert_record p dataset_name save_dir batch_size)
       jobs fs fs' ->
  forall (d : Dir) (indices : list Z),
    fs !! save_dir = Some d ->
    Forall2 (fun p i => base_name p = Ok i) jobs indices ->
    exists d' : Dir,
      fs' !! save_dir = Some d'
      /\ dom d' = dom d ∪ list_to_set (save_name <$> indices).
Proof.
  induction 1 as [fs|p ps fs fs1 fs2 Hp _ IH]; intros d indices Hd Hidx.
  - inversion Hidx; subst. exists d. split; [exact Hd|].
  simpl. rewrite (right_id_L ∅ (∪)). reflexivity.
  - inversion Hidx as [|? i ? rest Hi Hrest]; subst.
    rewrite convert_record_steps, Hi, Hd in Hp.
    destruct (build_scene_list _ _ _ _) as [scene_list|]; [|discriminate].
    injection Hp as <-.
    destruct (IH (<[save_name i := ShardFile scene_list]> d) rest)
      as (d' & Hd' & Hdom); [apply lookup_insert_eq|exact Hrest|].
    exists d'. split; [exact Hd'|].
    rewrite Hdom, dom_insert_L, fmap_cons. simpl.
  rewrite (comm_L (∪) {[save_name i]} (dom d)), (assoc_L (∪)). reflexivity.
Qed.

(** C10: the converter names the shards [1.pt.gz] to [N.pt.gz], so in
    a directory it has filled from shards numbered 1 to N, starting
    from an empty one, [__len__] is N and [__getitem__(0)] finds no
    file. *)
Theorem C10_index_zero_not_found (num_proc : nat)
  (dataset_name save_dir : string) (batch_size : Z) (jobs : list Path)
  (N : nat) (fs fs' : FS) :
  fs !! save_dir = Some ∅ ->
  Forall2 (fun p i => base_name p = Ok i) jobs (seqZ 1 (Z.of_nat N)) ->
  pool_map num_proc
    (fun p => convert_record p dataset_name save_dir batch_size) jobs fs
  = (Ok tt, fs') ->
  __len__ {| root_dir := save_dir |} fs' = Ok N
  /\ __getitem__ {| root_dir := save_dir |} 0 fs' = Raise FileNotFoundError.
Proof.
  intros Hempty Hjobs Hrun. apply pool_map_Ok in Hrun.
  destruct (runs_convert_dom _ _ _ _ _ _ Hrun ∅ _ Hempty Hjobs)
    as (d' & Hd' & Hdom).
  rewrite dom_empty_L, (left_id_L ∅ (∪)) in Hdom. split.
  - unfold __len__. simpl. rewrite Hd'. f_equal.
    rewrite <- size_dom, Hdom, size_list_to_set.
    + rewrite length_fmap, length_seqZ. lia.
    + apply (NoDup_fmap_2 _), NoDup_seqZ.
  - unfold __getitem__, load, read_file. simpl. rewrite Hd'. simpl.
    assert (Hnone : d' !! filename 0 = None).
    { apply not_elem_of_dom. rewrite Hdom.
      rewrite elem_of_list_to_set, list_elem_of_fmap.
      intros (i & Hi & Hin). apply save_name_inj in Hi. subst i.
      apply elem_of_seqZ in Hin. lia. }
    rewrite Hnone. reflexivity.
Qed.

Lemma C10_index_zero_not_found_witness :
  let run :=
    pool_map 4 (fun p => convert_record p "rooms_ring_camera" "out" 16)
             [path_join "in" "1-of-1.tfrecord"] one_shard_fs in
  one_shard_fs !! "out"%string = Some ∅
  /\ run.1 = Ok tt
  /\ __len__ {| root_dir := "out" |} run.2 = Ok 1%nat
  /\ __getitem__ {| root_dir := "out" |} 0 run.2 = Raise FileNotFoundError.
Proof.
  intros run.
  assert (Hout : one_shard_fs !! "out"%string = Some ∅)
    by (vm_compute; reflexivity).
  assert (Hrun : run.1 = Ok tt) by (vm_compute; reflexivity).
  split; [exact Hout|]. split; [exact Hrun|].
  apply (C10_index_zero_not_found 4 "rooms_ring_camera" "out" 16
           [path_join "in" "1-of-1.tfrecord"] 1 one_shard_fs run.2 Hout).
  - repeat constructor.
  - fold run. destruct run as [r fs']. simpl in *. rewrite Hrun. reflexivity.
Defined.

End Driver.

(** * Further properties of the code *)

Section DriverErrors.
Import Convert SceneDataset.

(** X1: for a data set that is not in the catalog [main] raises
    [ValueError] before it touches the file system: no directory is
    made. *)
Theorem main_unknown_dataset (args : Args) (cpu_count : nat) (fs : FS) :
  _DATASETS !! dataset args = None ->
  main args cpu_count fs = (Raise ValueError, fs).
Proof.
  intros Hnone. unfold main, record_list.
  rewrite bool_decide_eq_false_2; [reflexivity|].
  rewrite Hnone. intros [? ?]. discriminate.
Qed.

Lemma main_unknown_dataset_witness :
  _DATASETS !! dataset unknown_args = None
  /\ main unknown_args 4 one_shard_fs = (Raise ValueError, one_shard_fs).
Proof.
  assert (H : _DATASETS !! dataset unknown_args = None) by (vm_compute; reflexivity).
  split; [exact H|]. apply (main_unknown_dataset unknown_args 4 one_shard_fs H).
Defined.

(** X2: for a known data set whose input directory is missing, [main]
    raises [FileNotFoundError] after [torch_dir.mkdir]: the output
    directory exists when the call has failed. *)
Theorem main_missing_input_leaves_output_dir (args : Args) (cpu_count : nat)
  (fs : FS) :
  is_Some (_DATASETS !! dataset args) ->
  fs !! tf_dir args = None ->
  main args cpu_count fs = (Raise FileNotFoundError, mkdir (torch_dir args) fs)
  /\ is_Some ((main args cpu_count fs).2 !! torch_dir args).
Proof.
  intros Hknown Hdir.
  assert (Hne : torch_dir args <> tf_dir args).
  { unfold tf_dir, torch_dir. intros H.
    apply (f_equal Py.chars) in H. rewrite !chars_app in H.
    do 2 apply app_inv_head in H. discriminate. }
  assert (Hmain : main args cpu_count fs
                  = (Raise FileNotFoundError, mkdir (torch_dir args) fs)).
  { unfold main, record_list.
    rewrite bool_decide_eq_true_2 by exact Hknown. cbn [negb].
    unfold mkdir at 1. destruct (fs !! torch_dir args) eqn:E.
    - rewrite Hdir. unfold mkdir. rewrite E. reflexivity.
    - rewrite lookup_insert_ne by exact Hne. rewrite Hdir.
      unfold mkdir. rewrite E. reflexivity. }
  split; [exact Hmain|]. rewrite Hmain. apply mkdir_lookup.
Qed.

Lemma main_missing_input_leaves_output_dir_witness :
  is_Some (_DATASETS !! dataset first_shard_args)
  /\ (∅ : FS) !! tf_dir first_shard_args = None
  /\ main first_shard_args 4 ∅
     = (Raise FileNotFoundError, {[torch_dir first_shard_args := ∅]}).
Proof.
  assert (H1 : is_Some (_DATASETS !! dataset first_shard_args))
    by (vm_compute; eexists; reflexivity).
  assert (H2 : (∅ : FS) !! tf_dir first_shard_args = None) by apply lookup_empty.
  split; [exact H1|]. split; [exact H2|].
  apply (main_missing_input_leaves_output_dir first_shard_args 4 ∅ H1 H2).
Defined.

(** X3: a negative [--first-n] is a slice bound counted from the end:
    [record_list[:n]] keeps the sorted shard files but the last [-n]. *)
Theorem negative_first_n_drops_last (args : Args) (fs : FS) (d : Dir) (n : Z) :
  is_Some (_DATASETS !! dataset args) ->
  fs !! tf_dir args = Some d ->
  first_n args = Some n ->
  n < 0 ->
  (record_list args fs).1
  = Ok (path_join (tf_dir args)
          <$> take (length (sorted (glob_tfrecord d)) - Z.to_nat (- n))
                   (sorted (glob_tfrecord d))).
Proof.
  intros Hknown Hdir Hfirst Hn. unfold record_list.
  rewrite bool_decide_eq_true_2 by exact Hknown. cbn [negb].
  rewrite lookup_mkdir_ne by (apply not_eq_sym, tf_dir_ne_torch_dir).
  rewrite Hdir, Hfirst. cbn [fst]. f_equal. unfold Py.slice_to.
  destruct (Z.ltb_spec n 0); [|lia].
  rewrite length_fmap, fmap_take. reflexivity.
Qed.

Lemma negative_first_n_drops_last_witness :
  is_Some (_DATASETS !! dataset all_but_last_args)
  /\ first_n all_but_last_args = Some (-1)
  /\ (record_list all_but_last_args three_entries_fs).1
     = Ok [path_join "data/rooms_ring_camera/train" "1-of-2.tfrecord"].
Proof.
  assert (H1 : is_Some (_DATASETS !! dataset all_but_last_args))
    by (vm_compute; eexists; reflexivity).
  assert (H2 : three_entries_fs !! tf_dir all_but_last_args = Some three_entries)
    by (vm_compute; reflexivity).
  split; [exact H1|]. split; [reflexivity|].
  rewrite (negative_first_n_drops_last all_but_last_args three_entries_fs
             three_entries (-1) H1 H2 eq_refl); [|lia].
  vm_compute. reflexivity.
Defined.

End DriverErrors.

Section ShardEffects.
Import Convert SceneDataset.

(** X4: whether it succeeds or raises, [convert_record] changes no
    file but its own output [<save_dir>/<index>.pt.gz], and makes or
    removes no directory. *)
Theorem convert_record_touches_one_file (path : Path)
  (dataset_name save_dir : string) (batch_size : Z) (fs : FS) (q : Path) :
  (forall n, base_name path = Ok n -> q <> path_join save_dir (save_name n)) ->
  read_file (convert_record path dataset_name save_dir batch_size fs).2 q
  = read_file fs q
  /\ forall dir,
       is_Some ((convert_record path dataset_name save_dir batch_size fs).2 !! dir)
       <-> is_Some (fs !! dir).
Proof.
  intros Hq. rewrite convert_record_steps.
  destruct (build_scene_list _ _ _ _) as [scene_list|e]; [|split; reflexivity].
  destruct (base_name path) as [n|e]; [|split; reflexivity].
  destruct (fs !! save_dir) as [d|] eqn:Hd; [|split; reflexivity].
  cbn [snd]. split.
  - apply read_file_insert_other; [exact Hd|]. apply Hq. reflexivity.
  - intros dir. destruct (decide (dir = save_dir)) as [->|Hne].
    + rewrite lookup_insert_eq, Hd. split; eauto.
    + rewrite lookup_insert_ne by congruence. reflexivity.
Qed.

Lemma convert_record_touches_one_file_witness :
  (forall n, base_name (path_join "in" "1-of-1.tfrecord") = Ok n ->
             path_join "in" "1-of-1.tfrecord" <> path_join "out" (save_name n))
  /\ read_file
       (convert_record (path_join "in" "1-of-1.tfrecord") "rooms_ring_camera"
                       "out" 16 one_shard_fs).2
       (path_join "in" "1-of-1.tfrecord")
     = read_file one_shard_fs (path_join "in" "1-of-1.tfrecord").
Proof.
  assert (H : forall n, base_name (path_join "in" "1-of-1.tfrecord") = Ok n ->
                path_join "in" "1-of-1.tfrecord" <> path_join "out" (save_name n))
    by (intros n _; discriminate).
  split; [exact H|].
  apply (convert_record_touches_one_file (path_join "in" "1-of-1.tfrecord")
           "rooms_ring_camera" "out" 16 one_shard_fs
           (path_join "in" "1-of-1.tfrecord") H).
Defined.

(** X7: with a negative batch size that [Dataset.take] accepts, one
    not below [-2^63], [take] bounds nothing: every record of the shard
    is converted and saved. *)
Theorem negative_batch_size_converts_all (fs : FS) (path : Path)
  (dataset_name save_dir : string) (info : DatasetInfo) (batch_size : Z)
  (records : list RawRecord) (d : Dir) (base : Z) :
  _DATASETS !! dataset_name = Some info ->
  read_file fs path = Some (TFRecordFile records) ->
  fs !! save_dir = Some d ->
  base_name path = Ok base ->
  - 2 ^ 63 <= batch_size < 0 ->
  Forall (fun r => is_Ok (convert_raw_to_gzip info r) = true) records ->
  exists scene_list,
    convert_record path dataset_name save_dir batch_size fs
    = (Ok tt, <[save_dir := <[save_name base := ShardFile scene_list]> d]> fs)
    /\ length scene_list = length records.
Proof.
  intros Hinfo Hfile Hdir Hbase Hbs Hok.
  destruct (mapM_all_Ok _ _ Hok) as [scene_list Hlist].
  exists scene_list. rewrite convert_record_steps.
  rewrite (build_scene_list_processed _ _ _ info _ records Hinfo Hfile)
    by (apply is_int64_spec; lia).
  unfold processed. destruct (Z.ltb_spec batch_size 0); [|lia].
  rewrite Hlist, Hbase, Hdir. split; [reflexivity|].
  apply mapM_Ok_length in Hlist. exact Hlist.
Qed.

Lemma negative_batch_size_converts_all_witness :
  - 2 ^ 63 <= -1 < 0
  /\ exists scene_list,
       convert_record (path_join "in" "1-of-1.tfrecord") "rooms_ring_camera"
                      "out" (-1) one_shard_fs
       = (Ok tt,
          <["out"%string := <[save_name 1 := ShardFile scene_list]> ∅]>
            one_shard_fs)
       /\ length scene_list = 1%nat.
Proof.
  assert (H : - 2 ^ 63 <= -1 < 0) by lia.
  split; [exact H|].
  apply (negative_batch_size_converts_all one_shard_fs
           (path_join "in" "1-of-1.tfrecord") "rooms_ring_camera" "out"
           rooms_ring_camera (-1) [black_record] ∅ 1);
    [vm_compute; reflexivity..|exact H|].
  constructor; [vm_compute; reflexivity|constructor].
Defined.

End ShardEffects.

Section PoolOrder.
Import Convert SceneDataset.

Section AnyJob.
Variable f : Path -> FS -> result unit * FS.

Lemma runs_app_inv (ps qs : list Path) (fs fs2 : FS) :
  runs f (ps ++ qs) fs fs2 ->
  exists fs1, runs f ps fs fs1 /\ runs f qs fs1 fs2.
Proof.
  revert fs. induction ps as [|p ps IH]; intros fs; simpl.
  - intros H. exists fs. split; [constructor|exact H].
  - inversion 1 as [|? ? ? fs1 ? Hp Hrest]; subst.
    destruct (IH _ Hrest) as (fs1' & H1 & H2).
    exists fs1'. split; [econstructor; eassumption|exact H2].
Qed.

Lemma runs_run_chunk (jobs : list Path) (fs fs' : FS) :
  runs f jobs fs fs' -> run_chunk f jobs fs = (Ok tt, fs').
Proof.
  induction 1 as [|p ps fs fs1 fs2 Hp _ IH]; simpl; [reflexivity|].
  rewrite Hp. exact IH.
Qed.

Lemma runs_run_chunks (batches : list (list Path)) (fs fs' : FS) :
  runs f (concat batches) fs fs' -> run_chunks f batches fs = (Ok tt, fs').
Proof.
  revert fs. induction batches as [|c batches IH]; intros fs; simpl.
  - inversion 1. reflexivity.
  - intros H. apply runs_app_inv in H as (fs1 & Hc & Hrest).
    rewrite (runs_run_chunk _ _ _ Hc), (IH _ Hrest). reflexivity.
Qed.

(** The pool raises nothing exactly when every job, run in list order,
    raises nothing; the number of workers plays no part. *)
Lemma pool_map_Ok_iff (num_proc : nat) (jobs : list Path) (fs fs' : FS) :
  pool_map num_proc f jobs fs = (Ok tt, fs') <-> runs f jobs fs fs'.
Proof.
  split; [apply pool_map_Ok|]. intros H. unfold pool_map.
  apply runs_run_chunks. destruct jobs as [|p jobs]; [exact H|].
  rewrite chunks_concat; [exact H| |reflexivity].
  apply chunksize_pos. simpl. lia.
Qed.

End AnyJob.

(** Two conversions with different shard indices, whose inputs are not
    in the output directory, can be swapped. *)
Lemma convert_record_swap (dataset_name save_dir : string) (batch_size : Z)
  (x y : Path) (fs fs1 fs2 : FS) :
  parent x <> save_dir -> parent y <> save_dir ->
  base_name x <> base_name y ->
  convert_record x dataset_name save_dir batch_size fs = (Ok tt, fs1) ->
  convert_record y dataset_name save_dir batch_size fs1 = (Ok tt, fs2) ->
  exists fs1',
    convert_record y dataset_name save_dir batch_size fs = (Ok tt, fs1')
    /\ convert_record x dataset_name save_dir batch_size fs1' = (Ok tt, fs2).
Proof.
  intros Hx Hy Hne H1 H2.
  assert (Hout : forall (p : Path) nm, parent p <> save_dir ->
                                       p <> path_join save_dir nm).
  { intros p nm Hp ->. apply Hp. reflexivity. }
  rewrite convert_record_steps in H1.
  destruct (build_scene_list fs x dataset_name batch_size)
    as [sx|e] eqn:Bx; [|discriminate].
  destruct (base_name x) as [nx|e] eqn:Nx; [|discriminate].
  destruct (fs !! save_dir) as [d|] eqn:Hd; [|discriminate].
  injection H1 as <-.
  rewrite convert_record_steps in H2.
  rewrite (build_scene_list_read fs) in H2
    by (apply read_file_insert_other; [exact Hd|apply Hout; exact Hy]).
  destruct (build_scene_list fs y dataset_name batch_size)
    as [sy|e] eqn:By; [|discriminate].
  destruct (base_name y) as [ny|e] eqn:Ny; [|discriminate].
  rewrite lookup_insert_eq, insert_insert_eq in H2. injection H2 as <-.
  eexists. split.
  - rewrite convert_record_steps, By, Ny, Hd. reflexivity.
  - rewrite convert_record_steps, Nx.
    rewrite (build_scene_list_read fs), Bx
      by (apply read_file_insert_other; [exact Hd|apply Hout; exact Hx]).
    rewrite lookup_insert_eq, insert_insert_eq. do 2 f_equal.
    apply insert_insert_ne. intros Heq. apply save_name_inj in Heq. congruence.
Qed.

(** X9: when the inputs lie outside the output directory and no two of
    them have the same shard index, a run of the pool that raises
    nothing gives the same file system for every order of the jobs and
    every number of workers. *)
Theorem conversions_commute (num_proc num_proc' : nat)
  (dataset_name save_dir : string) (batch_size : Z)
  (jobs jobs' : list Path) (fs fs' : FS) :
  jobs ≡ₚ jobs' ->
  Forall (fun p => parent p <> save_dir) jobs ->
  NoDup (base_name <$> jobs) ->
  pool_map num_proc
    (fun p => convert_record p dataset_name save_dir batch_size) jobs fs
  = (Ok tt, fs') ->
  pool_map num_proc'
    (fun p => convert_record p dataset_name save_dir batch_size) jobs' fs
  = (Ok tt, fs').
Proof.
  intros Hperm Hin Hdup Hrun. apply pool_map_Ok_iff.
  apply pool_map_Ok_iff in Hrun. revert fs Hin Hdup Hrun.
  induction Hperm as [|p l l' _ IH|p q l|l l1 l2 H1 IH1 H2 IH2];
    intros fs Hin Hdup Hrun.
  - exact Hrun.
  - inversion Hrun as [|? ? ? fs1 ? Hp Hrest]; subst.
    econstructor; [exact Hp|]. apply IH; [|  |exact Hrest].
    + eapply Forall_inv_tail. exact Hin.
    + rewrite fmap_cons in Hdup. apply NoDup_cons in Hdup as [_ Hdup]. exact Hdup.
  - inversion Hrun as [|? ? ? fs1 ? Hq Hrest]; subst.
    inversion Hrest as [|? ? ? fs2 ? Hp Hrest']; subst.
    inversion Hin as [|? ? Hq_in Hin']; subst.
    inversion Hin' as [|? ? Hp_in _]; subst.
    rewrite !fmap_cons in Hdup. apply NoDup_cons in Hdup as [Hnotin _].
    destruct (convert_record_swap dataset_name save_dir batch_size
                q p fs fs1 fs2 Hq_in Hp_in) as (fs1' & Ha & Hb);
      [intros Heq; apply Hnotin; rewrite Heq; left|exact Hq|exact Hp|].
    econstructor; [exact Ha|]. econstructor; [exact Hb|exact Hrest'].
  - apply IH2.
    + rewrite <- H1. exact Hin.
    + rewrite <- H1. exact Hdup.
    + apply IH1; assumption.
Qed.

Lemma conversions_commute_witness :
  let f := fun p => convert_record p "rooms_ring_camera" "out" 16 in
  let run := pool_map 4 f [path_join "in" "1-of-2.tfrecord";
                           path_join "in" "2-of-2.tfrecord"] two_shards_fs in
  run.1 = Ok tt
  /\ pool_map 1 f [path_join "in" "2-of-2.tfrecord";
                   path_join "in" "1-of-2.tfrecord"] two_shards_fs
     = (Ok tt, run.2).
Proof.
  intros f run.
  assert (Hrun : run.1 = Ok tt) by (vm_compute; reflexivity).
  split; [exact Hrun|].
  apply (conversions_commute 4 1 "rooms_ring_camera" "out" 16
           [path_join "in" "1-of-2.tfrecord"; path_join "in" "2-of-2.tfrecord"]
           [path_join "in" "2-of-2.tfrecord"; path_join "in" "1-of-2.tfrecord"]
           two_shards_fs run.2).
  - apply perm_swap.
  - repeat constructor; discriminate.
  - vm_compute. apply NoDup_cons. split; [|apply NoDup_singleton].
    rewrite list_elem_of_singleton. discriminate.
  - apply run_is_pair. exact Hrun.
Defined.

End PoolOrder.

Section ViewpointShape.
Import Convert SceneDataset.

#[local] Arguments slice_last : simpl never.
#[local] Arguments pointwise : simpl never.

(** X10: on a tensor with at least one axis, [transform_viewpoint]
    succeeds exactly when the last axis has five components; it then
    returns seven components on the same leading axes, and otherwise it
    raises [ValueError]. *)
Theorem transform_viewpoint_Ok_iff (v : tensor R) :
  shape v <> [] ->
  (last_dim (shape v) = 5 <->
   exists out, transform_viewpoint v = Ok out)
  /\ (forall out, transform_viewpoint v = Ok out ->
                  shape out = leading (shape v) ++ [7])
  /\ (last_dim (shape v) <> 5 -> transform_viewpoint v = Raise ValueError).
Proof.
  intros Hrank.
  assert (Hnot : last_dim (shape v) <> 5 ->
                 transform_viewpoint v = Raise ValueError)
    by (apply transform_viewpoint_not_5; exact Hrank).
  split; [|split; [|exact Hnot]].
  - split.
    + intros Hd. destruct (transform_viewpoint_5 v Hrank Hd) as (out & H & _).
      exists out. exact H.
    + intros [out Hout]. destruct (decide (last_dim (shape v) = 5)) as [E|E];
        [exact E|]. rewrite (Hnot E) in Hout. discriminate.
  - intros out Hout. destruct (decide (last_dim (shape v) = 5)) as [E|E].
    + destruct (transform_viewpoint_5 v Hrank E) as (out' & H & Hs).
      rewrite Hout in H. injection H as <-. exact Hs.
    + rewrite (Hnot E) in Hout. discriminate.
Qed.

Lemma transform_viewpoint_Ok_iff_witness :
  shape (pose_array [2] [origin; origin]) <> []
  /\ (last_dim (shape (pose_array [2] [origin; origin])) = 5 <->
      exists out, transform_viewpoint (pose_array [2] [origin; origin]) = Ok out).
Proof.
  assert (H : shape (pose_array [2] [origin; origin]) <> []) by discriminate.
  split; [exact H|].
  apply (transform_viewpoint_Ok_iff (pose_array [2] [origin; origin]) H).
Defined.

(** X11: [transform_viewpoint] cannot be applied to its own result: the
    second application raises [ValueError]. *)
Theorem transform_viewpoint_twice (v out : tensor R) :
  transform_viewpoint v = Ok out ->
  transform_viewpoint out = Raise ValueError.
Proof.
  intros Hout.
  assert (Hrank : shape v <> []).
  { intros E. unfold transform_viewpoint, split_last in Hout.
    rewrite E in Hout. discriminate. }
  destruct (decide (last_dim (shape v) = 5)) as [E|E].
  - destruct (transform_viewpoint_5 v Hrank E) as (out' & H & Hs).
    rewrite Hout in H. injection H as <-.
    apply transform_viewpoint_not_5.
    + rewrite Hs. destruct (leading (shape v)); discriminate.
    + rewrite Hs, last_dim_snoc. discriminate.
  - rewrite (transform_viewpoint_not_5 v Hrank E) in Hout. discriminate.
Qed.

Lemma transform_viewpoint_twice_witness :
  transform_viewpoint (pose_array [1] [origin])
  = Ok (of_rows [1] 7 [cos_sin_row origin])
  /\ transform_viewpoint (of_rows [1] 7 [cos_sin_row origin]) = Raise ValueError.
Proof.
  assert (H : transform_viewpoint (pose_array [1] [origin])
              = Ok (of_rows [1] 7 [cos_sin_row origin]))
    by (apply (transform_viewpoint_rows [1] [origin]); reflexivity).
  split; [exact H|].
  apply (transform_viewpoint_twice (pose_array [1] [origin]) _ H).
Defined.

End ViewpointShape.

Section LoaderContract.
Import Convert SceneDataset.

Lemma concat_uniform_length {A} (n : nat) (ls : list (list A)) :
  Forall (fun l => length l = n) ls -> length (concat ls) = (length ls * n)%nat.
Proof.
  induction 1 as [|l ls Hl _ IH]; simpl; [reflexivity|].
  rewrite length_app, IH, Hl. reflexivity.
Qed.

Lemma raw_poses_concat (pss : list (list Pose)) :
  concat ((fun ps => concat (raw_row <$> ps)) <$> pss)
  = concat (raw_row <$> concat pss).
Proof.
  induction pss as [|ps pss IH]; [reflexivity|].
  rewrite fmap_cons, !concat_cons, fmap_app, concat_app, IH. reflexivity.
Qed.

(** X12: for a shard of [k >= 1] scenes, each of [n] frames of shape
    [(n, h, w, c)] with [n] raw poses, [__getitem__] returns images of
    shape [(k, n, c, h, w)] and the viewpoints of shape [(k, n, 7)], each
    pose as [(x, y, z, cos yaw, sin yaw, cos pitch, sin pitch)], in the
    order of the scenes. *)
Theorem getitem_raw_shard (self : t) (index : Z) (fs : FS)
  (items : list (tensor R * list Pose)) (n : nat) (h w c : Z) :
  load self index fs = Ok (raw_scene_of <$> items) ->
  items <> [] ->
  Forall (fun item => shape item.1 = [Z.of_nat n; h; w; c]
                      /\ length item.2 = n) items ->
  exists images,
    __getitem__ self index fs
    = Ok (images,
          of_rows [Z.of_nat (length items); Z.of_nat n] 7
                  (cos_sin_row <$> concat (snd <$> items)))
    /\ shape images = [Z.of_nat (length items); Z.of_nat n; c; h; w].
Proof.
  intros Hload Hne Hall. unfold __getitem__. rewrite Hload.
  cbn [mbind result_bind]. rewrite <- !list_fmap_compose.
  rewrite (stack_shape RuntimeError ((frames ∘ raw_scene_of) <$> items)
             [Z.of_nat n; h; w; c]).
  2: { destruct items; [contradiction|discriminate]. }
  2: { apply Forall_fmap. eapply Forall_impl; [exact Hall|].
       intros item [H _]. exact H. }
  cbn [mbind result_bind].
  rewrite (stack_shape RuntimeError ((cameras ∘ raw_scene_of) <$> items)
             [Z.of_nat n; 5]).
  2: { destruct items; [contradiction|discriminate]. }
  2: { apply Forall_fmap. eapply Forall_impl; [exact Hall|].
       intros item [_ H]. simpl. rewrite H. reflexivity. }
  cbn [mbind result_bind]. rewrite !length_fmap.
  set (k := Z.of_nat (length items)).
  assert (Hview : Build (k :: [Z.of_nat n; 5])
                    (concat (data <$> ((cameras ∘ raw_scene_of) <$> items)))
                  = pose_array [k; Z.of_nat n] (concat (snd <$> items))).
  { unfold pose_array, of_rows. f_equal.
    rewrite <- !list_fmap_compose, <- raw_poses_concat, <- list_fmap_compose.
    reflexivity. }
  rewrite Hview, transform_viewpoint_rows.
  2: { rewrite (concat_uniform_length n).
       - rewrite length_fmap. unfold k. simpl. lia.
       - apply Forall_fmap. eapply Forall_impl; [exact Hall|].
         intros item [_ H]. exact H. }
  unfold permute, rank. cbn [shape length Nat.eqb negb].
  replace (is_perm [0; 1; 4; 2; 3]%nat) with true by (vm_compute; reflexivity).
  cbn [negb mbind result_bind mret result_ret].
  eexists. split; reflexivity.
Qed.

Lemma getitem_raw_shard_witness :
  load {| root_dir := "out" |} 1 raw_fs
  = Ok (raw_scene_of <$> [(Build [1; 1; 1; 3] [0; 0; 0]%R, [origin])])
  /\ exists images,
       __getitem__ {| root_dir := "out" |} 1 raw_fs
       = Ok (images, of_rows [1; 1] 7 [cos_sin_row origin])
       /\ shape images = [1; 1; 3; 1; 1].
Proof.
  assert (H : load {| root_dir := "out" |} 1 raw_fs
              = Ok (raw_scene_of <$> [(Build [1; 1; 1; 3] [0; 0; 0]%R, [origin])]))
    by (vm_compute; reflexivity).
  split; [exact H|].
  apply (getitem_raw_shard {| root_dir := "out" |} 1 raw_fs
           [(Build [1; 1; 1; 3] [0; 0; 0]%R, [origin])] 1 1 1 3 H).
  - discriminate.
  - repeat constructor.
Defined.

(** X13: for a batch size [Dataset.take] accepts, a 64-bit integer, a
    shard of which no record is processed (an input without records, or
    a batch size of zero) is converted without error into an empty list,
    and [__getitem__] raises [RuntimeError] on it: [torch.stack] takes
    no empty list. *)
Theorem empty_shard_cannot_be_loaded (fs : FS) (path : Path)
  (dataset_name save_dir : string) (info : DatasetInfo) (batch_size n : Z)
  (records : list RawRecord) (d : Dir) :
  _DATASETS !! dataset_name = Some info ->
  read_file fs path = Some (TFRecordFile records) ->
  - 2 ^ 63 <= batch_size < 2 ^ 63 ->
  processed batch_size records = [] ->
  fs !! save_dir = Some d ->
  base_name path = Ok n ->
  exists fs',
    convert_record path dataset_name save_dir batch_size fs = (Ok tt, fs')
    /\ load {| root_dir := save_dir |} n fs' = Ok []
    /\ __getitem__ {| root_dir := save_dir |} n fs' = Raise RuntimeError.
Proof.
  intros Hinfo Hfile Hint Hempty Hdir Hbase.
  rewrite convert_record_steps.
  rewrite (build_scene_list_processed _ _ _ info _ records Hinfo Hfile)
    by (apply is_int64_spec; exact Hint).
  rewrite Hempty.
  cbn [mapM]. change (mret []) with (Ok (@nil Scene)).
  rewrite Hbase, Hdir. eexists. split; [reflexivity|].
  assert (Hload : load {| root_dir := save_dir |} n
                    (<[save_dir := <[save_name n := ShardFile []]> d]> fs) = Ok [])
    by apply (load_after_save {| root_dir := save_dir |}).
  split; [exact Hload|]. unfold __getitem__. rewrite Hload. reflexivity.
Qed.

Lemma empty_shard_cannot_be_loaded_witness :
  - 2 ^ 63 <= 16 < 2 ^ 63
  /\ exists fs',
    convert_record (path_join "data/rooms_ring_camera/train" "2-of-2.tfrecord")
                   "rooms_ring_camera" "data/rooms_ring_camera/train" 16
                   three_entries_fs = (Ok tt, fs')
    /\ load {| root_dir := "data/rooms_ring_camera/train" |} 2 fs' = Ok []
    /\ __getitem__ {| root_dir := "data/rooms_ring_camera/train" |} 2 fs'
       = Raise RuntimeError.
Proof.
  assert (H : - 2 ^ 63 <= 16 < 2 ^ 63) by lia.
  split; [exact H|].
  apply (empty_shard_cannot_be_loaded three_entries_fs
           (path_join "data/rooms_ring_camera/train" "2-of-2.tfrecord")
           "rooms_ring_camera" "data/rooms_ring_camera/train"
           rooms_ring_camera 16 2 [] three_entries);
    [vm_compute; reflexivity..|exact H|vm_compute; reflexivity
    |vm_compute; reflexivity|vm_compute; reflexivity].
Defined.

End LoaderContract.

Section ChannelsFirst.

Lemma omap_lookup_total {A B} (g : A -> option B) (l : list A) (i : nat) :
  Forall (fun a => is_Some (g a)) l ->
  omap g l !! i = l !! i ≫= g.
Proof.
  intros Hall. revert i. induction Hall as [|a l [b Hb] _ IH]; intros i.
  - reflexivity.
  - simpl. rewrite Hb. destruct i as [|i]; simpl; [exact (eq_sym Hb)|apply IH].
Qed.

Lemma digit_of_position (q d v st r : Z) :
  0 <= r < st -> 0 <= v < d ->
  (((q * d + v) * st + r) / st) mod d = v.
Proof.
  intros Hr Hv.
  rewrite Z.div_add_l by lia. rewrite (Z.div_small r st) by lia.
  rewrite Z.add_0_r, Z.add_comm, Z_mod_plus_full. apply Z.mod_small. exact Hv.
Qed.

Lemma channel_last_bound (k n h w c b s y x ch : Z) :
  0 <= b < k -> 0 <= s < n -> 0 <= y < h -> 0 <= x < w -> 0 <= ch < c ->
  0 <= channel_last_pos n h w c b s y x ch < k * (n * (h * (w * (c * 1)))).
Proof.
  intros Hb Hs Hy Hx Hc. unfold channel_last_pos.
  assert (0 <= b * n + s < k * n) by nia.
  assert (0 <= (b * n + s) * h + y < k * n * h) by nia.
  assert (0 <= ((b * n + s) * h + y) * w + x < k * n * h * w) by nia.
  nia.
Qed.

Lemma channel_first_bound (k n h w c b s y x ch : Z) :
  0 <= b < k -> 0 <= s < n -> 0 <= y < h -> 0 <= x < w -> 0 <= ch < c ->
  0 <= channel_first_pos n h w c b s y x ch < k * (n * (c * (h * (w * 1)))).
Proof.
  intros Hb Hs Hy Hx Hc. unfold channel_first_pos.
  assert (0 <= b * n + s < k * n) by nia.
  assert (0 <= (b * n + s) * c + ch < k * n * c) by nia.
  assert (0 <= ((b * n + s) * c + ch) * h + y < k * n * c * h) by nia.
  nia.
Qed.

(** X14: [permute(0, 1, 4, 2, 3)] on an array of shape [(k, n, h, w, c)]
    gives shape [(k, n, c, h, w)] and moves no value: the element at
    [(b, s, ch, y, x)] of the result is the element at
    [(b, s, y, x, ch)] of the argument. *)
Theorem permute_channels_first {A} (t : tensor A) (k n h w c : Z) :
  shape t = [k; n; h; w; c] ->
  0 < k -> 0 < n -> 0 < h -> 0 < w -> 0 < c ->
  Z.of_nat (length (data t)) = numel t ->
  exists out,
    permute t [0; 1; 4; 2; 3]%nat = Ok out
    /\ shape out = [k; n; c; h; w]
    /\ forall b s y x ch,
         0 <= b < k -> 0 <= s < n -> 0 <= y < h -> 0 <= x < w -> 0 <= ch < c ->
         data out !! Z.to_nat (channel_first_pos n h w c b s y x ch)
         = data t !! Z.to_nat (channel_last_pos n h w c b s y x ch)
         /\ is_Some (data t !! Z.to_nat (channel_last_pos n h w c b s y x ch)).
Proof.
  intros Hshape Hk Hn Hh Hw Hc Hlen.
  unfold numel in Hlen. rewrite Hshape in Hlen. simpl in Hlen.
  unfold permute, rank. rewrite Hshape. cbn [length Nat.eqb negb].
  replace (is_perm [0; 1; 4; 2; 3]%nat) with true by (vm_compute; reflexivity).
  cbn [negb]. eexists. split; [reflexivity|]. split; [reflexivity|].
  cbn [data omap list_omap lookup list_lookup strides dim_prod foldr
       unravel zip_with].
  set (g := fun j : Z => data t !! Z.to_nat _).
  (* every position of the result reads an element of [t] *)
  assert (Hoff : forall j, 0 <= j ->
            g j = data t !! Z.to_nat
                    (channel_last_pos n h w c
                       ((j / (n * (c * (h * (w * 1))))) mod k)
                       ((j / (c * (h * (w * 1)))) mod n)
                       ((j / (w * 1)) mod h)
                       ((j / 1) mod w)
                       ((j / (h * (w * 1))) mod c))).
  { intros j _. unfold g, channel_last_pos. do 2 f_equal. ring. }
  assert (Hsome : Forall (fun j => is_Some (g j))
                         (seqZ 0 (k * (n * (c * (h * (w * 1))))))).
  { apply Forall_forall. intros j Hj. apply elem_of_seqZ in Hj.
    rewrite Hoff by lia. apply lookup_lt_is_Some.
    pose proof (channel_last_bound k n h w c
                  ((j / (n * (c * (h * (w * 1))))) mod k)
                  ((j / (c * (h * (w * 1)))) mod n)
                  ((j / (w * 1)) mod h) ((j / 1) mod w)
                  ((j / (h * (w * 1))) mod c)) as Hb.
    pose proof (Z.mod_pos_bound (j / (n * (c * (h * (w * 1))))) k Hk).
    pose proof (Z.mod_pos_bound (j / (c * (h * (w * 1)))) n Hn).
    pose proof (Z.mod_pos_bound (j / (w * 1)) h Hh).
    pose proof (Z.mod_pos_bound (j / 1) w Hw).
    pose proof (Z.mod_pos_bound (j / (h * (w * 1))) c Hc).
    lia. }
  intros b s y x ch Hb Hs Hy Hx Hch.
  pose proof (channel_first_bound k n h w c b s y x ch Hb Hs Hy Hx Hch) as Hfirst.
  pose proof (channel_last_bound k n h w c b s y x ch Hb Hs Hy Hx Hch) as Hlast.
  split; [|apply lookup_lt_is_Some; lia].
  rewrite (omap_lookup_total g _ _ Hsome).
  rewrite lookup_seqZ_lt by lia. cbn [mbind option_bind].
  rewrite Z.add_0_l, Z2Nat.id by lia. rewrite Hoff by lia.
  do 2 f_equal. unfold channel_first_pos.
  f_equal; try f_equal; try f_equal; try f_equal.
  - replace ((((b * n + s) * c + ch) * h + y) * w + x)
      with ((0 * k + b) * (n * (c * (h * (w * 1))))
            + ((((s * c) + ch) * h + y) * w + x)) by ring.
    apply digit_of_position; [|lia].
    assert (0 <= s * c + ch < n * c) by nia.
    assert (0 <= (s * c + ch) * h + y < n * c * h) by nia. nia.
  - replace ((((b * n + s) * c + ch) * h + y) * w + x)
      with ((b * n + s) * (c * (h * (w * 1))) + ((ch * h + y) * w + x)) by ring.
    apply digit_of_position; [|lia].
    assert (0 <= ch * h + y < c * h) by nia. nia.
  - replace ((((b * n + s) * c + ch) * h + y) * w + x)
      with ((((b * n + s) * c + ch) * h + y) * (w * 1) + x) by ring.
    apply digit_of_position; lia.
  - replace ((((b * n + s) * c + ch) * h + y) * w + x)
      with (((((b * n + s) * c + ch) * h + y) * w + x) * 1 + 0) by ring.
    apply digit_of_position; lia.
  - replace ((((b * n + s) * c + ch) * h + y) * w + x)
      with (((b * n + s) * c + ch) * (h * (w * 1)) + (y * w + x)) by ring.
    apply digit_of_position; [nia|lia].
Qed.

Lemma permute_channels_first_witness :
  shape (Build [1; 2; 2; 2; 3] (seqZ 0 24)) = [1; 2; 2; 2; 3]
  /\ exists out,
       permute (Build [1; 2; 2; 2; 3] (seqZ 0 24)) [0; 1; 4; 2; 3]%nat = Ok out
       /\ shape out = [1; 2; 3; 2; 2].
Proof.
  split; [reflexivity|].
  destruct (permute_channels_first (Build [1; 2; 2; 2; 3] (seqZ 0 24))
              1 2 2 2 3) as (out & Hout & Hshape & _);
    [reflexivity|lia|lia|lia|lia|lia|reflexivity|].
  exists out. split; [exact Hout|exact Hshape].
Defined.

End ChannelsFirst.

Section FrameSize.
Import Convert SceneDataset.

Lemma convert_frames_same_shape (h w c : Z) (imgs : list Payload) :
  Forall (decodes_to h w c) imgs ->
  exists ts, mapM _convert_frame_data imgs = Ok ts
             /\ length ts = length imgs
             /\ Forall (fun u => shape u = [h; w; c]) ts.
Proof.
  induction 1 as [|p imgs [px ->] _ (ts & IH & Hlen & Hall)]; simpl.
  - exists []. repeat split. constructor.
  - rewrite IH. simpl. eexists. split; [reflexivity|].
    split; [simpl; congruence|]. constructor; [reflexivity|exact Hall].
Qed.

Lemma reshape_infer_fail {A} (t : tensor A) (dims : list Z) :
  Forall (fun d => 0 < d) dims ->
  numel t mod dim_prod dims <> 0 ->
  reshape t (-1 :: dims) = Raise InvalidArgumentError.
Proof.
  intros Hpos Hmod. pose proof (dim_prod_pos _ Hpos) as Hk.
  destruct (filter_positive_dims _ Hpos) as (F1 & F2 & F3).
  unfold reshape, count_infer, known_prod. simpl.
  rewrite F1, F2, F3. simpl.
  destruct (Z.eqb_spec (dim_prod dims) 0); [reflexivity|].
  destruct (Z.eqb_spec (numel t mod dim_prod dims) 0); [contradiction|].
  reflexivity.
Qed.

Lemma frames_stacked (info : DatasetInfo) (imgs : list Payload) (cams : tensor R)
  (h w c : Z) :
  0 < sequence_size info ->
  Z.of_nat (length imgs) = sequence_size info ->
  Forall (decodes_to h w c) imgs ->
  exists stacked,
    shape stacked = [sequence_size info; h; w; c]
    /\ _preprocess_frames info
         {| ex_frames := Build [sequence_size info] imgs; ex_cameras := cams |}
       = (frames ← reshape stacked
            [-1; sequence_size info; frame_size info; frame_size info; 3];
          if negb (frame_size info =? 64) then
            frames ← reshape frames [-1; frame_size info; frame_size info; 3];
            frames ← resize frames [64; 64];
            reshape frames [-1; sequence_size info; 64; 64; 3]
          else mret frames).
Proof.
  intros Hn Hlen Himgs. unfold _preprocess_frames, _NUM_CHANNELS.
  cbn [ex_frames app].
  rewrite (reshape_infer _ []); [|constructor|apply Z.mod_1_r].
  cbn [mbind result_bind].
  destruct (convert_frames_same_shape h w c imgs Himgs)
    as (ts & Hmap & Hts & Hshape).
  rewrite (map_fn_stack _ _ ts); [|exact Hmap|intros ->; simpl in Hts; lia].
  rewrite (stack_shape _ ts [h; w; c]);
    [|intros ->; simpl in Hts; lia|exact Hshape].
  cbn [mbind result_bind]. eexists. split; [|reflexivity].
  simpl. rewrite Hts, Hlen. reflexivity.
Qed.

(** X15: [_preprocess_frames] does not compare the size of the decoded
    images with the frame size of the data set. For a data set with
    frames of 64 pixels, when every image has the same shape and [m]
    times the samples of a frame, the record is accepted and the frames
    get shape [(m, sequence_size, 64, 64, 3)]. *)
Theorem frames_of_multiple_pixel_count (info : DatasetInfo)
  (imgs : list Payload) (cams : tensor R) (h w c m : Z) :
  0 < sequence_size info -> frame_size info = 64 ->
  Z.of_nat (length imgs) = sequence_size info ->
  Forall (decodes_to h w c) imgs ->
  0 < m ->
  h * w * c = m * (frame_size info * frame_size info * 3) ->
  exists t,
    _preprocess_frames info
      {| ex_frames := Build [sequence_size info] imgs; ex_cameras := cams |}
    = Ok t
    /\ shape t = [m; sequence_size info; 64; 64; 3].
Proof.
  intros Hn Hsize Hlen Himgs Hm Hcount.
  destruct (frames_stacked info imgs cams h w c Hn Hlen Himgs)
    as (stacked & Hshape & ->).
  rewrite Hsize in *. set (n := sequence_size info) in *.
  assert (Hnumel : numel stacked = m * (n * (64 * (64 * (3 * 1))))).
  { unfold numel. rewrite Hshape. simpl. nia. }
  rewrite (reshape_infer _ [n; 64; 64; 3]);
    [|repeat constructor; lia|rewrite Hnumel; apply Z_mod_mult].
  simpl dim_prod. rewrite Hnumel, Z_div_mult by nia.
  cbn [mbind result_bind Z.eqb Pos.eqb negb]. eexists. split; reflexivity.
Qed.

Lemma frames_of_multiple_pixel_count_witness :
  Forall (decodes_to 128 64 3) tall_frames
  /\ 128 * 64 * 3 = 2 * (frame_size rooms_ring_camera
                         * frame_size rooms_ring_camera * 3)
  /\ exists t,
       _preprocess_frames rooms_ring_camera
         {| ex_frames := Build [10] tall_frames; ex_cameras := Build [0] [] |}
       = Ok t
       /\ shape t = [2; 10; 64; 64; 3].
Proof.
  assert (H1 : Forall (decodes_to 128 64 3) tall_frames).
  { repeat constructor; eexists; reflexivity. }
  assert (H2 : 128 * 64 * 3 = 2 * (frame_size rooms_ring_camera
                                 * frame_size rooms_ring_camera * 3))
    by reflexivity.
  split; [exact H1|]. split; [exact H2|].
  apply (frames_of_multiple_pixel_count rooms_ring_camera tall_frames
           (Build [0] []) 128 64 3 2); [reflexivity..|exact H1|lia|exact H2].
Defined.

Lemma frames_decode (size : Z) (imgs : list Payload) :
  forallb (is_frame size) imgs = true ->
  Forall (decodes_to size size 3) imgs.
Proof.
  intros H. apply Forall_forall. intros p Hp.
  rewrite forallb_forall in H. specialize (H p).
  rewrite <- list_elem_of_In in H. specialize (H Hp).
  destruct p as [h w c px|]; [|discriminate]. simpl in H.
  apply andb_prop in H as [H _]. apply andb_prop in H as [H Hc].
  apply andb_prop in H as [Hh Hw].
  apply Z.eqb_eq in Hh, Hw, Hc. subst h w c. exists px. reflexivity.
Qed.

(** X25: the frames of a data set whose frame size is not 64 are handed
    to [tf.image.resize] with the keyword [align_corners], which the
    function does not take: the conversion of every well-formed record
    of such a data set raises [TypeError]. *)
Theorem resized_frames_raise_TypeError (info : DatasetInfo) (raw : RawRecord) :
  0 < sequence_size info -> 0 < frame_size info ->
  frame_size info <> 64 ->
  well_formed info raw = true ->
  convert_raw_to_gzip info raw = Raise TypeError.
Proof.
  intros Hn Hsize Hne Hwf. unfold well_formed in Hwf.
  apply andb_prop in Hwf as [Hfields Himgs].
  unfold fields_match in Hfields. unfold payloads in Himgs.
  destruct raw as [fm|]; [|discriminate].
  unfold convert_raw_to_gzip, parse_single_example, parse_bytes, parse_floats.
  destruct (fm !! "frames"%string) as [[imgs|?|?]|]; try discriminate.
  destruct (fm !! "cameras"%string) as [[?|cams|?]|]; try discriminate.
  apply andb_prop in Hfields as [Hi Hc].
  unfold _NUM_RAW_CAMERA_PARAMS. rewrite Hi, Hc.
  cbn [mbind result_bind mret result_ret].
  apply Z.eqb_eq in Hi.
  destruct (frames_stacked info imgs (Build [sequence_size info * 5] cams)
              (frame_size info) (frame_size info) 3 Hn Hi
              (frames_decode _ _ Himgs))
    as (stacked & Hshape & ->).
  set (n := sequence_size info) in *. set (size := frame_size info) in *.
  rewrite (reshape_same_size _ [n; size; size; 3]);
    [|repeat constructor; lia|unfold numel; rewrite Hshape; reflexivity].
  cbn [mbind result_bind].
  destruct (Z.eqb_spec size 64) as [E|_]; [contradiction|]. cbn [negb].
  rewrite (reshape_infer _ [size; size; 3]);
    [|repeat constructor; lia
     |unfold numel; simpl;
      replace (1 * (n * (size * (size * (3 * 1)))))
        with (n * (size * (size * (3 * 1)))) by lia;
      apply Z_mod_mult].
  reflexivity.
Qed.

Lemma resized_frames_raise_TypeError_witness :
  frame_size rooms_free_camera_with_object_rotations <> 64
  /\ well_formed rooms_free_camera_with_object_rotations large_record = true
  /\ convert_raw_to_gzip rooms_free_camera_with_object_rotations large_record
     = Raise TypeError.
Proof.
  assert (H1 : frame_size rooms_free_camera_with_object_rotations <> 64)
    by discriminate.
  assert (H2 : well_formed rooms_free_camera_with_object_rotations large_record
               = true) by (vm_compute; reflexivity).
  split; [exact H1|]. split; [exact H2|].
  apply (resized_frames_raise_TypeError rooms_free_camera_with_object_rotations
           large_record); [reflexivity|reflexivity|exact H1|exact H2].
Defined.

(** X16: when the images of a record have the same shape and a number
    of samples that is no multiple of [frame_size * frame_size * 3] (a
    gray-scale image, for one), [_preprocess_frames] raises
    [InvalidArgumentError]. *)
Theorem frames_of_other_pixel_count (info : DatasetInfo)
  (imgs : list Payload) (cams : tensor R) (h w c : Z) :
  0 < sequence_size info -> 0 < frame_size info ->
  Z.of_nat (length imgs) = sequence_size info ->
  Forall (decodes_to h w c) imgs ->
  (h * w * c) mod (frame_size info * frame_size info * 3) <> 0 ->
  _preprocess_frames info
    {| ex_frames := Build [sequence_size info] imgs; ex_cameras := cams |}
  = Raise InvalidArgumentError.
Proof.
  intros Hn Hsize Hlen Himgs Hmod.
  destruct (frames_stacked info imgs cams h w c Hn Hlen Himgs)
    as (stacked & Hshape & ->).
  set (n := sequence_size info) in *. set (size := frame_size info) in *.
  rewrite (reshape_infer_fail _ [n; size; size; 3]); [reflexivity| |].
  - repeat constructor; lia.
  - unfold numel. rewrite Hshape. simpl.
    replace (n * (h * (w * (c * 1)))) with (n * (h * w * c)) by ring.
    replace (n * (size * (size * (3 * 1)))) with (n * (size * size * 3)) by ring.
    rewrite Zmult_mod_distr_l. nia.
Qed.

Lemma frames_of_other_pixel_count_witness :
  Forall (decodes_to 64 64 1) gray_frames
  /\ (64 * 64 * 1) mod (frame_size rooms_ring_camera
                        * frame_size rooms_ring_camera * 3) <> 0
  /\ _preprocess_frames rooms_ring_camera
       {| ex_frames := Build [10] gray_frames; ex_cameras := Build [0] [] |}
     = Raise InvalidArgumentError.
Proof.
  assert (H1 : Forall (decodes_to 64 64 1) gray_frames).
  { repeat constructor; eexists; reflexivity. }
  assert (H2 : (64 * 64 * 1) mod (frame_size rooms_ring_camera
                                  * frame_size rooms_ring_camera * 3) <> 0)
    by (vm_compute; discriminate).
  split; [exact H1|]. split; [exact H2|].
  apply (frames_of_other_pixel_count rooms_ring_camera gray_frames
           (Build [0] []) 64 64 1); [reflexivity..|exact H1|exact H2].
Defined.

End FrameSize.

Section Ordinals.
Import Convert SceneDataset.

Lemma decimal_zeros (z : nat) (ds : list ascii) :
  decimal (replicate z "0"%char ++ ds) = decimal ds.
Proof.
  unfold decimal. rewrite fold_left_app. f_equal.
  induction z as [|z IH]; simpl; [reflexivity|exact IH].
Qed.

Lemma all_digits_zeros (z : nat) (ds : list ascii) :
  all_digits ds -> all_digits (replicate z "0"%char ++ ds).
Proof.
  intros [Hne Hds]. split.
  - destruct z; simpl; [exact Hne|discriminate].
  - apply Forall_app. split; [|exact Hds].
    apply Forall_replicate. reflexivity.
Qed.

(** X17: zeros in front of the ordinal do not change the shard index:
    names that differ in the padding, in what follows the first dash or
    in the directory are written to the same output name. *)
Theorem index_ignores_zero_padding (dir dir' : string) (z : nat)
  (ds rest rest' : list ascii) :
  all_digits ds ->
  base_name (path_join dir
               (Py.of_chars ((replicate z "0"%char ++ ds) ++ "-"%char :: rest)))
  = base_name (path_join dir' (Py.of_chars (ds ++ "-"%char :: rest')))
  /\ output_name (path_join dir
                    (Py.of_chars ((replicate z "0"%char ++ ds) ++ "-"%char :: rest)))
     = Ok (save_name (decimal ds)).
Proof.
  intros Hds.
  assert (H : base_name (path_join dir
                (Py.of_chars ((replicate z "0"%char ++ ds) ++ "-"%char :: rest)))
              = Ok (decimal ds)).
  { rewrite base_name_digits by (apply all_digits_zeros; exact Hds).
    rewrite decimal_zeros. reflexivity. }
  split.
  - rewrite H, base_name_digits by exact Hds. reflexivity.
  - unfold output_name. rewrite H. reflexivity.
Qed.

Lemma index_ignores_zero_padding_witness :
  all_digits (Py.chars "7")
  /\ base_name (path_join "a" "007-of-900.tfrecord")
     = base_name (path_join "b" "7-of-9.tfrecord").
Proof.
  assert (H : all_digits (Py.chars "7"))
    by (split; [discriminate|repeat constructor]).
  split; [exact H|].
  apply (index_ignores_zero_padding "a" "b" 2 (Py.chars "7")
           (Py.chars "of-900.tfrecord") (Py.chars "of-9.tfrecord") H).
Defined.

(** X18: of two inputs with the same shard index converted one after
    the other, the second overwrites the output of the first: the output
    directory has the names it had after the first, and the file of that
    index holds the scenes of the second. *)
Theorem equal_index_overwrites (x y : Path) (dataset_name save_dir : string)
  (batch_size n : Z) (fs fs1 fs2 : FS) :
  base_name x = Ok n -> base_name y = Ok n ->
  convert_record x dataset_name save_dir batch_size fs = (Ok tt, fs1) ->
  convert_record y dataset_name save_dir batch_size fs1 = (Ok tt, fs2) ->
  exists (d1 d2 : Dir) scene_list,
    fs1 !! save_dir = Some d1 /\ fs2 !! save_dir = Some d2
    /\ dom d2 = dom d1
    /\ build_scene_list fs1 y dataset_name batch_size = Ok scene_list
    /\ d2 !! save_name n = Some (ShardFile scene_list).
Proof.
  intros Nx Ny H1 H2.
  rewrite convert_record_steps, Nx in H1.
  destruct (build_scene_list fs x dataset_name batch_size)
    as [sx|e]; [|discriminate].
  destruct (fs !! save_dir) as [d|] eqn:Hd; [|discriminate].
  injection H1 as <-.
  rewrite convert_record_steps, Ny, lookup_insert_eq in H2.
  destruct (build_scene_list _ y dataset_name batch_size)
    as [sy|e] eqn:By; [|discriminate].
  injection H2 as <-.
  exists (<[save_name n := ShardFile sx]> d),
         (<[save_name n := ShardFile sy]> (<[save_name n := ShardFile sx]> d)), sy.
  split; [apply lookup_insert_eq|]. split; [apply lookup_insert_eq|].
  split; [|split; [reflexivity|apply lookup_insert_eq]].
  rewrite !dom_insert_L. apply set_eq. intros k. rewrite !elem_of_union.
  tauto.
Qed.

Lemma equal_index_overwrites_witness :
  let f := fun p => convert_record p "rooms_ring_camera" "out" 16 in
  let first := f (path_join "in" "1-of-1.tfrecord") same_ordinal_fs in
  let second := f (path_join "in" "01-of-1.tfrecord") first.2 in
  first.1 = Ok tt /\ second.1 = Ok tt
  /\ exists (d1 d2 : Dir) scene_list,
       first.2 !! "out"%string = Some d1 /\ second.2 !! "out"%string = Some d2
       /\ dom d2 = dom d1
       /\ build_scene_list first.2 (path_join "in" "01-of-1.tfrecord")
            "rooms_ring_camera" 16 = Ok scene_list
       /\ d2 !! save_name 1 = Some (ShardFile scene_list).
Proof.
  intros f first second.
  assert (H1 : first.1 = Ok tt) by (vm_compute; reflexivity).
  assert (H2 : second.1 = Ok tt) by (vm_compute; reflexivity).
  split; [exact H1|]. split; [exact H2|].
  apply (equal_index_overwrites (path_join "in" "1-of-1.tfrecord")
           (path_join "in" "01-of-1.tfrecord") "rooms_ring_camera" "out"
           16 1 same_ordinal_fs first.2 second.2).
  - vm_compute. reflexivity.
  - vm_compute. reflexivity.
  - apply run_is_pair. exact H1.
  - apply run_is_pair. exact H2.
Defined.

(** After jobs with different shard indices, whose inputs are not in the
    output directory, have run: the inputs are as they were, and the
    file of every index holds the scenes of its input. *)
Lemma runs_convert_content (dataset_name save_dir : string) (batch_size : Z)
  (jobs : list Path) (fs fs' : FS) :
  runs (fun p => convert_record p dataset_name save_dir batch_size)
       jobs fs fs' ->
  forall indices : list Z,
    Forall2 (fun p i => base_name p = Ok i) jobs indices ->
    Forall (fun p => parent p <> save_dir) jobs ->
    NoDup indices ->
    (forall q, q ∉ path_join save_dir ∘ save_name <$> indices ->
               read_file fs' q = read_file fs q)
    /\ Forall2 (fun p i =>
                  exists scenes,
                    build_scene_list fs p dataset_name batch_size = Ok scenes
                    /\ read_file fs' (path_join save_dir (save_name i))
                       = Some (ShardFile scenes))
               jobs indices.
Proof.
  induction 1 as [fs|p ps fs fs1 fs2 Hp _ IH]; intros indices Hidx Hout Hdup.
  - inversion Hidx; subst. split; [reflexivity|constructor].
  - inversion Hidx as [|? i ? rest Hi Hrest]; subst.
    apply Forall_cons in Hout as [Hp_out Hps_out].
    apply NoDup_cons in Hdup as [Hnotin Hdup].
    rewrite convert_record_steps, Hi in Hp.
    destruct (build_scene_list fs p dataset_name batch_size)
      as [scene_list|] eqn:Hbuild; [|discriminate].
    destruct (fs !! save_dir) as [d|] eqn:Hd; [|discriminate].
    injection Hp as <-.
    destruct (IH rest Hrest Hps_out Hdup) as [Hframe Hfiles].
    assert (Hstep : forall q, q <> path_join save_dir (save_name i) ->
              read_file
                (<[save_dir := <[save_name i := ShardFile scene_list]> d]> fs) q
              = read_file fs q)
      by (intros q Hq; apply read_file_insert_other; [exact Hd|exact Hq]).
    split.
    + intros q Hq. rewrite fmap_cons in Hq.
      apply not_elem_of_cons in Hq as [Hq1 Hq2].
      rewrite Hframe by exact Hq2. apply Hstep. exact Hq1.
    + constructor.
      * exists scene_list. split; [exact Hbuild|].
        rewrite Hframe.
        -- unfold read_file. simpl. rewrite lookup_insert_eq. simpl.
           apply lookup_insert_eq.
        -- rewrite list_elem_of_fmap. intros (j & Hj & Hin).
           injection Hj as Hj. apply save_name_inj in Hj. subst j.
           contradiction.
      * clear -Hfiles Hps_out Hstep.
        induction Hfiles as [|q j qs js Hq _ IHf]; [constructor|].
        apply Forall_cons in Hps_out as [Hq_out Hqs_out].
        constructor; [|apply IHf; exact Hqs_out].
        destruct Hq as (scenes & Hq & Hfile). exists scenes.
        split; [|exact Hfile].
        rewrite <- Hq. symmetry. apply build_scene_list_read, Hstep.
        intros ->. apply Hq_out. reflexivity.
Qed.

(** X19: after a run of the pool that raises nothing, on inputs outside
    the output directory with different shard indices, the file the
    loader opens for the ordinal of an input holds the scenes made from
    that input. *)
Theorem converted_shards_found_by_ordinal (num_proc : nat)
  (dataset_name save_dir : string) (batch_size : Z) (jobs : list Path)
  (indices : list Z) (fs fs' : FS) :
  Forall2 (fun p i => base_name p = Ok i) jobs indices ->
  Forall (fun p => parent p <> save_dir) jobs ->
  NoDup indices ->
  pool_map num_proc
    (fun p => convert_record p dataset_name save_dir batch_size) jobs fs
  = (Ok tt, fs') ->
  Forall2 (fun p i =>
             exists scenes,
               build_scene_list fs p dataset_name batch_size = Ok scenes
               /\ read_file fs' (path_join save_dir (filename i))
                  = Some (ShardFile scenes))
          jobs indices.
Proof.
  intros Hjobs Hout Hdup Hrun. apply pool_map_Ok in Hrun.
  exact (proj2 (runs_convert_content _ _ _ _ _ _ Hrun indices Hjobs Hout Hdup)).
Qed.

Lemma converted_shards_found_by_ordinal_witness :
  let run :=
    pool_map 4 (fun p => convert_record p "rooms_ring_camera" "out" 16)
             [path_join "in" "1-of-2.tfrecord"; path_join "in" "2-of-2.tfrecord"]
             two_shards_fs in
  run.1 = Ok tt
  /\ Forall2 (fun p i =>
                exists scenes,
                  build_scene_list two_shards_fs p "rooms_ring_camera" 16
                  = Ok scenes
                  /\ read_file run.2 (path_join "out" (filename i))
                     = Some (ShardFile scenes))
             [path_join "in" "1-of-2.tfrecord"; path_join "in" "2-of-2.tfrecord"]
             [1; 2].
Proof.
  intros run.
  assert (Hrun : run.1 = Ok tt) by (vm_compute; reflexivity).
  split; [exact Hrun|].
  apply (converted_shards_found_by_ordinal 4 "rooms_ring_camera" "out" 16
           [path_join "in" "1-of-2.tfrecord"; path_join "in" "2-of-2.tfrecord"]
           [1; 2] two_shards_fs run.2).
  - repeat constructor.
  - repeat constructor; discriminate.
  - apply NoDup_cons. split; [|apply NoDup_singleton].
    rewrite list_elem_of_singleton. discriminate.
  - apply run_is_pair. exact Hrun.
Defined.

End Ordinals.

Section Annealing.
Import Scheduler.

Lemma iterate_state (k : nat) (self : Annealer) :
  steps self <> 0 ->
  iterate k self
  = ((fun i => Some (value_at (init self) (final self) (steps self)
                              (t self + 1 + Z.of_nat i))) <$> seq 0 k,
     {| init := init self; final := final self; steps := steps self;
        t := t self + Z.of_nat k;
        current := match k with
                   | O => current self
                   | S k' => value_at (init self) (final self) (steps self)
                                      (t self + Z.of_nat k)
                   end |}).
Proof.
  revert self. induction k as [|k IH]; intros self Hsteps.
  - simpl. rewrite Z.add_0_r. destruct self; reflexivity.
  - cbn [iterate]. unfold __next__ at 1.
    destruct (Z.eqb_spec (steps self) 0); [contradiction|].
    rewrite IH by exact Hsteps. cbn [init final steps t current].
    f_equal.
    + cbn [seq fmap list_fmap]. rewrite Z.add_0_r. f_equal.
      rewrite <- seq_shift, <- list_fmap_compose.
      apply list_fmap_ext. intros _ i _. simpl. do 2 f_equal. lia.
    + f_equal; [lia|]. destruct k; f_equal; lia.
Qed.

(** X20: with [steps] other than zero, call [i + 1] of [next] on a new
    [Annealer] returns the value of step [i + 1], and after [k] calls
    the counter is [k]. Floating-point numbers are idealised as real
    numbers. *)
Theorem annealer_closed_form (v0 v1 : R) (count : Z) (k i : nat) :
  count <> 0 -> (i < k)%nat ->
  (iterate k (new v0 v1 count)).1 !! i
  = Some (Some (value_at v0 v1 count (Z.of_nat i + 1)))
  /\ t (iterate k (new v0 v1 count)).2 = Z.of_nat k.
Proof.
  intros Hsteps Hi. rewrite iterate_state by exact Hsteps.
  cbn [fst snd new t init final steps].
  split; [|reflexivity].
  rewrite list_lookup_fmap, lookup_seq_lt by exact Hi. simpl.
  do 3 f_equal. lia.
Qed.

Lemma annealer_closed_form_witness :
  (2 : Z) <> 0 /\ (1 < 3)%nat
  /\ (iterate 3 (new 1 0 2)).1 !! 1%nat = Some (Some (value_at 1 0 2 2)).
Proof.
  assert (H1 : (2 : Z) <> 0) by discriminate.
  assert (H2 : (1 < 3)%nat) by lia.
  split; [exact H1|]. split; [exact H2|].
  apply (annealer_closed_form 1 0 2 3 1 H1 H2).
Defined.

Lemma ratio_le (steps a b : Z) :
  0 < steps -> a <= b -> (IZR a / IZR steps <= IZR b / IZR steps)%R.
Proof.
  intros Hs Hab. unfold Rdiv. apply Rmult_le_compat_r.
  - left. apply Rinv_0_lt_compat. apply (IZR_lt 0). exact Hs.
  - apply IZR_le. exact Hab.
Qed.

Lemma ratio_one (steps : Z) : 0 < steps -> (IZR steps / IZR steps = 1)%R.
Proof.
  intros Hs. unfold Rdiv. apply Rinv_r.
  apply not_eq_sym, Rlt_not_eq, (IZR_lt 0). exact Hs.
Qed.

Lemma ratio_pos (steps a : Z) :
  0 < steps -> 0 <= a -> (0 <= IZR a / IZR steps)%R.
Proof.
  intros Hs Ha. pose proof (ratio_le steps 0 a Hs Ha) as H.
  unfold Rdiv in H at 1. rewrite Rmult_0_l in H. exact H.
Qed.

(** X21: for [final <= init] and [steps > 0] the values of an [Annealer]
    never increase, stay between [final] and [init], and are [final]
    from step [steps] on. *)
Theorem annealer_decreases_to_final (init final : R) (steps a b : Z) :
  (final <= init)%R -> 0 < steps -> 0 <= a <= b ->
  (final <= value_at init final steps b <= value_at init final steps a)%R
  /\ (value_at init final steps a <= init)%R
  /\ (steps <= a -> value_at init final steps a = final).
Proof.
  intros Hfi Hs Hab. unfold value_at.
  pose proof (ratio_le steps a b Hs ltac:(lia)) as Hle.
  pose proof (ratio_pos steps a Hs ltac:(lia)) as Hpos.
  set (x := (IZR a / IZR steps)%R) in *. set (y := (IZR b / IZR steps)%R) in *.
  repeat split.
  - apply Rmax_r.
  - apply Rle_max_compat_r. nra.
  - apply Rmax_lub; [nra|exact Hfi].
  - intros Hsa. pose proof (ratio_le steps steps a Hs Hsa) as H1.
    rewrite ratio_one in H1 by exact Hs. fold x in H1.
    apply Rmax_right. nra.
Qed.

Lemma annealer_decreases_to_final_witness :
  (0 <= 1)%R /\ 0 < 2 /\ 0 <= 2 <= 3
  /\ value_at 1 0 2 2 = 0%R.
Proof.
  assert (H1 : (0 <= 1)%R) by lra.
  assert (H2 : 0 < 2) by lia.
  assert (H3 : 0 <= 2 <= 3) by lia.
  split; [exact H1|]. split; [exact H2|]. split; [exact H3|].
  apply (annealer_decreases_to_final 1 0 2 2 3 H1 H2 H3). lia.
Defined.

(** X22: for [init < final] an [Annealer] does not anneal upwards: its
    value is [final] at every step up to [steps], and greater than
    [final] after. *)
Theorem annealer_cannot_increase (init final : R) (steps a : Z) :
  (init < final)%R -> 0 < steps -> 0 <= a ->
  (a <= steps -> value_at init final steps a = final)
  /\ (steps < a -> (final < value_at init final steps a)%R).
Proof.
  intros Hif Hs Ha. unfold value_at. split.
  - intros Has. pose proof (ratio_le steps a steps Hs Has) as H1.
    rewrite ratio_one in H1 by exact Hs.
    apply Rmax_right. nra.
  - intros Hsa.
    assert (H1 : (1 < IZR a / IZR steps)%R).
    { rewrite <- (ratio_one steps Hs). unfold Rdiv.
      apply Rmult_lt_compat_r.
      - apply Rinv_0_lt_compat, (IZR_lt 0). exact Hs.
      - apply IZR_lt. exact Hsa. }
    eapply Rlt_le_trans; [|apply Rmax_l]. nra.
Qed.

Lemma annealer_cannot_increase_witness :
  (0 < 1)%R /\ 0 < 2 /\ 0 <= 1
  /\ value_at 0 1 2 1 = 1%R.
Proof.
  assert (H1 : (0 < 1)%R) by lra.
  assert (H2 : 0 < 2) by lia.
  assert (H3 : 0 <= 1) by lia.
  split; [exact H1|]. split; [exact H2|]. split; [exact H3|].
  apply (annealer_cannot_increase 0 1 2 1 H1 H2 H3). lia.
Defined.

(** X23: with [steps = 0] every call of [next] raises
    [ZeroDivisionError]; the counter is incremented all the same and
    [current] keeps its value. *)
Theorem annealer_zero_steps (self : Annealer) (k : nat) :
  steps self = 0 ->
  iterate k self
  = (replicate k None,
     {| init := init self; final := final self; steps := steps self;
        t := t self + Z.of_nat k; current := current self |}).
Proof.
  revert self. induction k as [|k IH]; intros self Hsteps.
  - simpl. rewrite Z.add_0_r. destruct self; reflexivity.
  - cbn [iterate]. unfold __next__. rewrite Hsteps. cbn [Z.eqb].
    rewrite IH by reflexivity. cbn [init final steps t current replicate].
    do 2 f_equal. lia.
Qed.

Lemma annealer_zero_steps_witness :
  steps (new 1 0 0) = 0
  /\ iterate 2 (new 1 0 0)
     = ([None; None],
        {| init := 1; final := 0; steps := 0; t := 2; current := 1 |}).
Proof.
  assert (H : steps (new 1 0 0) = 0) by reflexivity.
  split; [exact H|].
  apply (annealer_zero_steps (new 1 0 0) 2 H).
Defined.

(** X24: for [n] other than zero, [get_lr] gives every parameter group
    the same rate, whatever its base rate; the rate is at least [mu_f],
    and it is [mu_f] once [last_epoch] has reached [n] (for
    [mu_f <= mu_i] and [n > 0]). *)
Theorem get_lr_same_for_all_groups (self : AnnealingStepLR) :
  n self <> 0%R ->
  exists lr,
    get_lr self = Some (replicate (length (base_lrs self)) lr)
    /\ (mu_f self <= lr)%R
    /\ ((mu_f self <= mu_i self)%R -> (0 < n self <= IZR (last_epoch self))%R ->
        lr = mu_f self).
Proof.
  intros Hn.
  exists (Rmax (mu_f self + (mu_i self - mu_f self)
                            * (1 - IZR (last_epoch self) / n self))
               (mu_f self)).
  split; [|split].
  - unfold get_lr. destruct (base_lrs self) as [|lr0 lrs] eqn:E; [reflexivity|].
    destruct (Req_dec_T (n self) 0); [contradiction|]. f_equal.
    generalize (lr0 :: lrs). intros l.
    induction l as [|x l IH]; simpl; [reflexivity|]. f_equal. exact IH.
  - apply Rmax_r.
  - intros Hfi [Hpos Hle]. apply Rmax_right.
    assert (1 <= IZR (last_epoch self) / n self)%R.
    { unfold Rdiv. rewrite <- (Rinv_r (n self)) by exact Hn.
      apply Rmult_le_compat_r; [|exact Hle].
      left. apply Rinv_0_lt_compat. exact Hpos. }
    nra.
Qed.

Lemma get_lr_same_for_all_groups_witness :
  (2 <> 0)%R
  /\ exists lr,
       get_lr {| mu_i := 1; mu_f := 0; n := 2; last_epoch := 1;
                 base_lrs := [5; 7]%R |}
       = Some [lr; lr].
Proof.
  assert (H : (2 <> 0)%R) by lra.
  split; [exact H|].
  destruct (get_lr_same_for_all_groups
              {| mu_i := 1; mu_f := 0; n := 2; last_epoch := 1;
                 base_lrs := [5; 7]%R |} H) as (lr & Hlr & _).
  exists lr. exact Hlr.
Defined.

End Annealing.
